(** * Luwio-Routing: the locale-aware router facade

    A shallow embedding of [src/domain/index.tsx] (class [LuwioRouter]) and
    proofs about route resolution, path building, absolute links and
    navigation.  The consumed router engine (@tanstack/react-router) is not
    part of the repository: it enters as the interface [Engine].  What the
    facade relies on, a path-keyed index of the registered routes, is
    stated as the laws [EngineLaws], and for engines that rewrite paths as
    [IndexesNormalised], which asks it of normalised paths only. *)

From Stdlib Require Import String Ascii List Bool ZArith Lia.
From stdpp Require Import base option list strings gmap.

Local Open Scope string_scope.

(** ** JavaScript string primitives used by the facade

    A string is the sequence of its code units.  The facade compares
    strings, concatenates them, and tests for or removes a slash at either
    end; these read the same on any unit size. *)

Module Js.

(** [s.startsWith(p)] *)
Definition startsWith (s p : string) : bool := String.prefix p s.

(** [s.endsWith(p)]: [s] is [p], or the rest of [s] ends with [p]. *)
Fixpoint endsWith (s p : string) : bool :=
  (s =? p) ||
  match s with
  | EmptyString => false
  | String _ s' => endsWith s' p
  end.

(** The names every plain object inherits from [Object.prototype]. *)
Definition object_prototype : list string :=
  ["constructor"; "__defineGetter__"; "__defineSetter__"; "hasOwnProperty";
   "__lookupGetter__"; "__lookupSetter__"; "isPrototypeOf"; "propertyIsEnumerable";
   "toString"; "valueOf"; "__proto__"; "toLocaleString"].

(** What a property read finds: an own value, or a member the object
    inherits (a function, or the prototype itself for [__proto__]); both
    are truthy. *)
Inductive Member (A : Type) : Type :=
| Own (a : A)
| Inherited.
Arguments Own {A}.
Arguments Inherited {A}.

(** [o[key]] for a plain object with the own properties [own]; [None] is
    [undefined]. *)
Definition get {A : Type} (own : gmap string A) (key : string) : option (Member A) :=
  match own !! key with
  | Some a => Some (Own a)
  | None => if bool_decide (key ∈ object_prototype) then Some Inherited else None
  end.

(** [xs.includes(x)] on an array of strings. *)
Definition includes (xs : list string) (x : string) : bool := bool_decide (x ∈ xs).

(** [o && { field: o }] for an optional string: the empty string is falsy,
    so the field is left out for it as for [undefined]. *)
Definition truthy_string (o : option string) : option string :=
  match o with
  | Some s => if s =? "" then None else Some s
  | None => None
  end.

(** The double quote character inside the error messages. *)
Definition dquote : string := String (ascii_of_nat 34) EmptyString.

(** [s.slice(start, end)]: negative indices count from the end, both are
    clamped to [0, length], and an [end] left out is the length. *)
Definition slice (s : string) (start : Z) (end_ : option Z) : string :=
  let len := Z.of_nat (String.length s) in
  let clamp i := if (i <? 0)%Z then Z.max (len + i) 0 else Z.min i len in
  let from := clamp start in
  let to := clamp (default len end_) in
  String.substring (Z.to_nat from) (Z.to_nat (to - from)) s.

End Js.

(** ** Configuration data, as declared in the source *)

Module RouteLocale.
Record t := mk { definition : string; language : string; path : string }.
End RouteLocale.
Abbreviation RouteLocaleI := RouteLocale.t.

Module LanguageAwareRoute.
Record t := mk { key : string; language : string }.
End LanguageAwareRoute.


(** ** What is exchanged with the router engine *)

(** The engine parses a location into (among others) these two fields. *)
Module ParsedLocation.
Record t := mk { pathname : string; href : string }.
End ParsedLocation.

(** [new Error(message)], and how a [Promise<void>] settles. *)
Record Error := { message : string }.

Inductive Promise : Type :=
| Fulfilled
| Rejected (e : Error).

Inductive Method : Type := replace | push.

(** The options object handed to [router.buildLocation]. *)
Module BuildOptions.
Record t (Search Params : Type) := mk {
  to : string;
  search : option Search;
  params : option Params;
  hash : option string;
}.
Arguments mk {Search Params}.
Arguments to {Search Params}.
Arguments search {Search Params}.
Arguments params {Search Params}.
Arguments hash {Search Params}.
End BuildOptions.

(** The options object handed to [router.navigate]. *)
Module NavigateOptions.
Record t (Search Params NavState : Type) := mk {
  to : string;
  from : option string;
  search : option Search;
  params : option Params;
  hash : option string;
  method : option Method;
  state : option NavState;
}.
Arguments mk {Search Params NavState}.
Arguments to {Search Params NavState}.
Arguments from {Search Params NavState}.
Arguments search {Search Params NavState}.
Arguments params {Search Params NavState}.
Arguments hash {Search Params NavState}.
Arguments method {Search Params NavState}.
Arguments state {Search Params NavState}.
End NavigateOptions.

(** ** The router engine, as the facade consumes it

    Everything [index.tsx] imports from the engine or reads from a router:
    [createRoute], [createRouter], [route.fullPath], [router.routesByPath],
    [router.buildLocation], [router.navigate], [router.history.back] and
    [router.__store.state.location].  A router has an immutable compiled
    part ([Router]) and a mutable store ([Store]).  [createRoute] takes
    the component as the constructor reads it, [None] being [undefined];
    [router_accepts] tells for which routes [createRouter] returns: it
    throws for the others. *)
Class Engine := {
  Component : Type;              (* () => React.ReactNode *)
  AnyRoute : Type;
  Router : Type;
  Store : Type;
  Search : Type;                 (* Record<string, unknown> *)
  Params : Type;                 (* Record<string, unknown> *)
  NavState : Type;               (* the T of navigate<T> *)
  truthy : NavState -> bool;     (* JavaScript truthiness of a T *)
  createRoute : AnyRoute -> string -> option Component -> AnyRoute;
  fullPath : AnyRoute -> string;
  createRouter : AnyRoute -> list AnyRoute -> Router;
  router_accepts : AnyRoute -> list AnyRoute -> bool;
  routesByPath : Router -> gmap string AnyRoute;
  buildLocation : Router -> Store -> BuildOptions.t Search Params -> ParsedLocation.t;
  location : Store -> ParsedLocation.t;
  router_navigate :
    Router -> NavigateOptions.t Search Params NavState -> Store -> Promise * Store;
  history_back : Store -> Store;
}.

(** The engine contract the resolver depends on (spec sections 3, 4.2 and
    6): a route registered under the root is reachable at the path it was
    given, and [routesByPath] is an index from concrete path to registered
    route. *)
Class EngineLaws (E : Engine) : Prop := {
  fullPath_createRoute : forall parent p c, fullPath (createRoute parent p c) = p;
  routesByPath_registered : forall rootRoute rs p r,
    routesByPath (createRouter rootRoute rs) !! p = Some r -> r ∈ rs /\ fullPath r = p;
  routesByPath_indexed : forall rootRoute rs r,
    r ∈ rs -> is_Some (routesByPath (createRouter rootRoute rs) !! fullPath r);
}.

(** A path contains two slashes in a row. *)
Fixpoint has_double_slash (s : string) : bool :=
  match s with
  | String a s' => (Ascii.eqb a "/" && Js.startsWith s' "/") || has_double_slash s'
  | EmptyString => false
  end.

(** A normalised path: it begins with a slash, has no two slashes in a
    row, and has no trailing slash unless it is "/" itself. *)
Definition normalised (p : string) : bool :=
  Js.startsWith p "/" && negb (has_double_slash p) &&
  ((p =? "/") || negb (Js.endsWith p "/")).

(** The routes created under [rootRoute] for a list of paths and
    components. *)
Definition create {E : Engine} (rootRoute : AnyRoute)
    (specs : list (string * option Component)) : list AnyRoute :=
  (fun spec => createRoute rootRoute spec.1 spec.2) <$> specs.

(** The part of that contract an engine that rewrites paths still keeps,
    under a root route [rootRoute]: a route created at a normalised path
    has that path, and for normalised, pairwise distinct paths
    [createRouter] returns and [routesByPath] holds, at each of the paths,
    the route created there, and nothing else. *)
Class IndexesNormalised (E : Engine) (rootRoute : AnyRoute) : Prop := {
  normalised_fullPath : forall p c,
    normalised p = true -> fullPath (createRoute rootRoute p c) = p;
  normalised_index : forall specs,
    Forall (fun spec => normalised spec.1 = true) specs ->
    NoDup specs.*1 ->
    router_accepts rootRoute (create rootRoute specs) = true /\
    forall p r,
      routesByPath (createRouter rootRoute (create rootRoute specs)) !! p = Some r <->
      exists c, (p, c) ∈ specs /\ r = createRoute rootRoute p c;
}.

(** Calls of engine commands, recorded in the order the facade issues them. *)
Inductive EngineCall {E : Engine} : Type :=
| CallNavigate (options : NavigateOptions.t Search Params NavState)
| CallHistoryBack.

(** The world a facade call runs in: the engine's store and the trace of
    commands issued so far. *)
Record World {E : Engine} := { store : Store; calls : list EngineCall }.

Section Facade.
Context {E : Engine}.

Record RouteDefinitionI := { component : Component }.

(** [definitions] is a [Record<string, RouteDefinitionI>], a plain object:
    the map holds its own properties, and it is read with [Js.get]. *)
Record LocaleAwareRouteConfigI := {
  root : AnyRoute;
  definitions : gmap string RouteDefinitionI;
  routes : list RouteLocaleI;
  defaultLanguage : string;
  supportedLanguages : list string;
}.

Record NavigateParams := {
  nav_to : LanguageAwareRoute.t;
  nav_from : option LanguageAwareRoute.t;
  nav_query : option Search;
  nav_params : option Params;
  nav_hash : option string;
  nav_method : option Method;
  nav_state : option NavState;
}.

Record HrefParams := {
  href_key : string;
  href_language : string;
  href_query : option Search;
  href_params : option Params;
  href_hash : option string;
}.

(** [_buildPath]: [defaultLanguage ?? ""] is [defaultLanguage] for the
    string the configuration type requires. *)
Definition _buildPath (config : LocaleAwareRouteConfigI) (language path : string) : string :=
  let defaultLng := defaultLanguage config in
  let languageSafePath := if path =? "/" then "" else path in
  if negb (language =? defaultLng) then "/" +:+ language +:+ languageSafePath else path.

(** The instance: [this._config] and [this._router]. *)
Record LuwioRouter := { _config : LocaleAwareRouteConfigI; _router : Router }.

(** [routeConfig.component]: an inherited member has no such property. *)
Definition component_of (routeConfig : Js.Member RouteDefinitionI) : option Component :=
  match routeConfig with
  | Js.Own d => Some (component d)
  | Js.Inherited => None
  end.

(** The callback of [routes.map] in the constructor: [None] is the [null]
    that the following [filter] removes. *)
Definition compileRoute (config : LocaleAwareRouteConfigI) (route : RouteLocaleI)
  : option AnyRoute :=
  match Js.get (definitions config) (RouteLocale.definition route) with
  | None => None
  | Some routeConfig =>
      if negb (Js.includes (supportedLanguages config) (RouteLocale.language route))
      then None
      else Some (createRoute (root config)
                   (_buildPath config (RouteLocale.language route) (RouteLocale.path route))
                   (component_of routeConfig))
  end.

(** The instance the constructor builds, where [createRouter] returns. *)
Definition constructor (config : LocaleAwareRouteConfigI) : LuwioRouter :=
  let compiled := omap (compileRoute config) (routes config) in
  {| _config := config; _router := createRouter (root config) compiled |}.

(** [new LuwioRouter(config)]: [None] where [createRouter] throws. *)
Definition new_LuwioRouter (config : LocaleAwareRouteConfigI) : option LuwioRouter :=
  let compiled := omap (compileRoute config) (routes config) in
  if router_accepts (root config) compiled then Some (constructor config) else None.

(** The predicate of [routes.find] in [_route]. *)
Definition matches (key language : string) (route : RouteLocaleI) : bool :=
  (RouteLocale.language route =? language) && (RouteLocale.definition route =? key).

Definition _route (this : LuwioRouter) (key language : string) : option AnyRoute :=
  match Js.get (definitions (_config this)) key with
  | None => None
  | Some _ =>
      match List.find (matches key language) (routes (_config this)) with
      | None => None
      | Some route =>
          let path := _buildPath (_config this) language (RouteLocale.path route) in
          routesByPath (_router this) !! path
      end
  end.

(** [path]: the source also calls [buildLocation] on the route and drops
    the result; [buildLocation] is a query of the engine, so the value is
    the route's [fullPath]. *)
Definition path (this : LuwioRouter) (key language : string) : string :=
  match _route this key language with
  | None => ""
  | Some route => fullPath route
  end.

Definition hasRoute (this : LuwioRouter) (key language : string) : bool :=
  match _route this key language with
  | None => false
  | Some _ => true
  end.

Definition isActive (this : LuwioRouter) (st : Store) (key language : string) : bool :=
  let currentLocation := location st in
  match _route this key language with
  | Some route => ParsedLocation.pathname currentLocation =? fullPath route
  | None => false
  end.

Definition href (this : LuwioRouter) (st : Store) (p : HrefParams) : string :=
  match _route this (href_key p) (href_language p) with
  | None => ""
  | Some route =>
      let options :=
        BuildOptions.mk (fullPath route) (href_query p) (href_params p)
          (Js.truthy_string (href_hash p)) in
      ParsedLocation.href (buildLocation (_router this) st options)
  end.

Definition relative (this : LuwioRouter) (st : Store) (p : HrefParams) : string :=
  href this st p.

Definition strippedHref (href : string) : string :=
  if Js.startsWith href "/" then Js.slice href 1 None else href.

Definition strippedBaseUrl (baseUrl : string) : string :=
  if Js.endsWith baseUrl "/" then Js.slice baseUrl 0 (Some (-1)%Z) else baseUrl.

Definition absolute (this : LuwioRouter) (st : Store) (baseUrl : string) (p : HrefParams)
  : string :=
  strippedBaseUrl baseUrl +:+ "/" +:+ strippedHref (href this st p).

(** The two error messages of [navigate]. *)
Definition to_not_found (to : LanguageAwareRoute.t) : Error :=
  {| message := "Route (to) for key " +:+ Js.dquote +:+ LanguageAwareRoute.key to
       +:+ Js.dquote +:+ " and language " +:+ Js.dquote
       +:+ LanguageAwareRoute.language to +:+ Js.dquote +:+ " not found." |}.

Definition from_not_found (from : LanguageAwareRoute.t) : Error :=
  {| message := "Route (from) for key " +:+ Js.dquote +:+ LanguageAwareRoute.key from
       +:+ Js.dquote +:+ " and language " +:+ Js.dquote
       +:+ LanguageAwareRoute.language from +:+ Js.dquote +:+ " not found." |}.

(** The [options] object of [navigate]. *)
Definition navigate_options (p : NavigateParams) (toRoute : AnyRoute)
    (fromRoute : option AnyRoute) : NavigateOptions.t Search Params NavState :=
  NavigateOptions.mk (fullPath toRoute) (fullPath <$> fromRoute)
    (nav_query p) (nav_params p) (Js.truthy_string (nav_hash p)) (nav_method p)
    (match nav_state p with
     | Some s => if truthy s then Some s else None
     | None => None
     end).

(** [await this._router.navigate(options)]: the call is recorded, the
    store is the engine's, and the promise settles as the engine's does. *)
Definition invoke_navigate (this : LuwioRouter)
    (options : NavigateOptions.t Search Params NavState) (w : World) : Promise * World :=
  let '(settled, st) := router_navigate (_router this) options (store w) in
  (settled, {| store := st; calls := calls w ++ [CallNavigate options] |}).

Definition navigate (this : LuwioRouter) (p : NavigateParams) (w : World)
  : Promise * World :=
  let to := nav_to p in
  match _route this (LanguageAwareRoute.key to) (LanguageAwareRoute.language to) with
  | None => (Rejected (to_not_found to), w)
  | Some toRoute =>
      match nav_from p with
      | Some from =>
          match _route this (LanguageAwareRoute.key from)
                  (LanguageAwareRoute.language from) with
          | None => (Rejected (from_not_found from), w)
          | Some fromRoute =>
              invoke_navigate this (navigate_options p toRoute (Some fromRoute)) w
          end
      | None => invoke_navigate this (navigate_options p toRoute None) w
      end
  end.

Definition goBack (this : LuwioRouter) (w : World) : Promise * World :=
  (Fulfilled,
   {| store := history_back (store w); calls := calls w ++ [CallHistoryBack] |}).

(** ** Vocabulary of the statements *)

(** [route] is a locale entry of the pair [(key, language)]. *)
Definition is_entry_for (key language : string) (route : RouteLocaleI) : Prop :=
  RouteLocale.definition route = key /\ RouteLocale.language route = language.

(** The concrete path the path builder gives a locale entry. *)
Definition concretePath (config : LocaleAwareRouteConfigI) (route : RouteLocaleI) : string :=
  _buildPath config (RouteLocale.language route) (RouteLocale.path route).

(** The constructor registers [route]: reading its key in the definitions
    gives something, and its language is supported. *)
Definition registers (config : LocaleAwareRouteConfigI) (route : RouteLocaleI) : Prop :=
  is_Some (Js.get (definitions config) (RouteLocale.definition route)) /\
  RouteLocale.language route ∈ supportedLanguages config.

(** [route] is the first entry of [(key, language)] in the routes list. *)
Definition first_entry_for (config : LocaleAwareRouteConfigI) (key language : string)
    (route : RouteLocaleI) : Prop :=
  exists before after,
    routes config = (before ++ route :: after)%list /\
    is_entry_for key language route /\
    Forall (fun r => ~ is_entry_for key language r) before.

(** What the router's index holds at the concrete path of [route]. *)
Definition indexed (config : LocaleAwareRouteConfigI) (route : RouteLocaleI)
  : option AnyRoute :=
  routesByPath (_router (constructor config)) !! concretePath config route.

(** There is a slash at position [i] of [s]. *)
Definition slash_at (s : string) (i : nat) : bool :=
  match String.get i s with
  | Some c => Ascii.eqb c "/"
  | None => false
  end.

(** In [joined], whose separating slash is at position [j], that slash has
    a slash right after it or right before it. *)
Definition double_slash_at_join (joined : string) (j : nat) : bool :=
  slash_at joined (S j) ||
  match j with
  | 0 => false
  | S i => slash_at joined i
  end.

End Facade.

(** ** The provider and the hooks around the facade

    [context/router-context.tsx], [hooks/use-routing.tsx] and the hooks on
    route parameters and search.  React enters as far as these files use
    it: an element tree, and the context value a consumer reads, which is
    the value of the provider around it or the default [undefined]. *)

(** The arguments of the two reactive hooks. *)
Module BaseRoutingHook.
Record t {E : Engine} := mk { router : LuwioRouter; route : LanguageAwareRoute.t }.
Arguments mk {E}.
End BaseRoutingHook.

(** The elements these files render, and any other element ([Rendered],
    a component of the application). *)
Inductive Element {E : Engine} : Type :=
| RouterProvider (router : Router)
| RoutingContextProvider (value : LuwioRouter) (child : Element)
| Rendered.

Section Hooks.
Context {E : Engine}.

(** [getTanstackProvider] *)
Definition getTanstackProvider (this : LuwioRouter) : Element :=
  RouterProvider (_router this).

Definition RoutingProvider (props : LocaleAwareRouteConfigI) : Element :=
  let localeAwareRouter := constructor props in
  RoutingContextProvider localeAwareRouter (getTanstackProvider localeAwareRouter).

(** [useContext(RoutingContext)] for a consumer whose ancestors in the
    element tree are [ancestors], the nearest first: the value of the
    nearest provider of the context; [None] is the default [undefined] of
    [createContext]. *)
Fixpoint useContext (ancestors : list Element) : option LuwioRouter :=
  match ancestors with
  | RoutingContextProvider value _ :: _ => Some value
  | _ :: above => useContext above
  | [] => None
  end.

(** [e] provides the routing context. *)
Definition provides_routing (e : Element) : bool :=
  match e with
  | RoutingContextProvider _ _ => true
  | _ => false
  end.

(** [useRouting]: the left side is the thrown error. *)
Definition useRouting (ancestors : list Element) : Error + LuwioRouter :=
  match useContext ancestors with
  | None => inl {| message := "useRouting must be used within a RoutingProvider" |}
  | Some router => inr router
  end.

(** The engine's [useParams({ from })] and [useSearch({ from })], which
    read the router's store. *)
Variable Any : Type.
Variable useParams : Store -> string -> Any.
Variable useSearch : Store -> string -> Any.



End Hooks.

(** ** More vocabulary *)

Section Vocabulary.
Context {E : Engine}.

(** [config] with another routes list. *)
Definition with_routes (config : LocaleAwareRouteConfigI) (rs : list RouteLocaleI)
  : LocaleAwareRouteConfigI :=
  {| root := root config;
     definitions := definitions config;
     routes := rs;
     defaultLanguage := defaultLanguage config;
     supportedLanguages := supportedLanguages config |}.

(** [config] without the entries whose key reads as [undefined] in the
    definitions. *)
Definition without_undefined (config : LocaleAwareRouteConfigI) : LocaleAwareRouteConfigI :=
  with_routes config
    (filter (fun r => is_Some (Js.get (definitions config) (RouteLocale.definition r)))
       (routes config)).

(** The entries the constructor registers, in list order. *)
Definition registered (config : LocaleAwareRouteConfigI) : list RouteLocaleI :=
  filter (fun r => is_Some (Js.get (definitions config) (RouteLocale.definition r)) /\
                   RouteLocale.language r ∈ supportedLanguages config)
         (routes config).

(** What the constructor asks the engine to create for an entry. *)
Definition route_spec (config : LocaleAwareRouteConfigI) (route : RouteLocaleI)
  : string * option Component :=
  (concretePath config route,
   match Js.get (definitions config) (RouteLocale.definition route) with
   | Some routeConfig => component_of routeConfig
   | None => None
   end).

(** The registered entries have normalised, pairwise distinct concrete
    paths. *)
Definition registers_normalised (config : LocaleAwareRouteConfigI) : Prop :=
  Forall (fun r => normalised (concretePath config r) = true) (registered config) /\
  NoDup (concretePath config <$> registered config).

(** Both selectors of a navigate call resolve. *)
Definition selectors_resolve (this : LuwioRouter) (p : NavigateParams) : Prop :=
  hasRoute this (LanguageAwareRoute.key (nav_to p))
    (LanguageAwareRoute.language (nav_to p)) = true /\
  forall from, nav_from p = Some from ->
    hasRoute this (LanguageAwareRoute.key from) (LanguageAwareRoute.language from) = true.

(** [path] of a selector. *)
Definition path_of (this : LuwioRouter) (r : LanguageAwareRoute.t) : string :=
  path this (LanguageAwareRoute.key r) (LanguageAwareRoute.language r).

End Vocabulary.

(** ** A reference engine

    The smallest engine with the contract of [EngineLaws]: a route is its
    path and its component, a router is the index of its routes by path
    (the first registered route wins a path), every list of routes is
    accepted, and the store is a history stack.  It runs the facade on
    concrete configurations. *)

Module Reference.

Record Route := { route_fullPath : string; route_component : option string }.

Record History := { current : ParsedLocation.t; past : list ParsedLocation.t }.

Definition index (rs : list Route) : gmap string Route :=
  foldr (fun r m => <[route_fullPath r := r]> m) ∅ rs.

(** Query and positional parameters are left out of the rendered link. *)
Definition locate (to : string) (hash : option string) : ParsedLocation.t :=
  {| ParsedLocation.pathname := to;
     ParsedLocation.href := to +:+ match hash with Some h => "#" +:+ h | None => "" end |}.

Definition go (options : NavigateOptions.t unit unit string) (h : History) : History :=
  let target := locate (NavigateOptions.to options) (NavigateOptions.hash options) in
  match NavigateOptions.method options with
  | Some replace => {| current := target; past := past h |}
  | _ => {| current := target; past := current h :: past h |}
  end.

Definition back (h : History) : History :=
  match past h with
  | [] => h
  | l :: rest => {| current := l; past := rest |}
  end.

#[export] Instance engine : Engine := {|
  Component := string;
  AnyRoute := Route;
  Router := gmap string Route;
  Store := History;
  Search := unit;
  Params := unit;
  NavState := string;
  truthy := fun s => negb (s =? "");
  createRoute := fun _ p c => {| route_fullPath := p; route_component := c |};
  fullPath := route_fullPath;
  createRouter := fun _ rs => index rs;
  router_accepts := fun _ _ => true;
  routesByPath := fun rt => rt;
  buildLocation := fun _ _ o => locate (BuildOptions.to o) (BuildOptions.hash o);
  location := current;
  router_navigate := fun _ o h => (Fulfilled, go o h);
  history_back := back;
|}.

Definition rootRoute : Route :=
  {| route_fullPath := "/"; route_component := Some "Root" |}.

Definition locale (k l p : string) : RouteLocaleI := RouteLocale.mk k l p.

Definition define_one (k : string) : string * @RouteDefinitionI engine :=
  (k, @Build_RouteDefinitionI engine k).

Definition define (keys : list string) : gmap string (@RouteDefinitionI engine) :=
  list_to_map (List.map define_one keys).

Definition at_path (p : string) : @Store engine :=
  {| current := locate p None; past := [] |}.

Definition fresh (p : string) : World := {| store := at_path p; calls := [] |}.

Definition select (k l : string) : HrefParams :=
  {| href_key := k; href_language := l; href_query := None; href_params := None;
     href_hash := None |}.

Definition go_to (k l : string) (from : option LanguageAwareRoute.t) : NavigateParams :=
  {| nav_to := LanguageAwareRoute.mk k l; nav_from := from; nav_query := None;
     nav_params := None; nav_hash := None; nav_method := None; nav_state := None |}.

(** Scenario A of the spec. *)
Definition scenarioA : LocaleAwareRouteConfigI := {|
  root := rootRoute;
  definitions := define ["home"; "about"];
  routes := [locale "home" "en" "/"; locale "home" "be" "/";
             locale "about" "en" "/about"; locale "about" "be" "/over-ons"];
  defaultLanguage := "en";
  supportedLanguages := ["en"; "be"];
|}.

(** Two entries with one concrete path ("/be"), one of them in a language
    that is not supported. *)
Definition sharedPath : LocaleAwareRouteConfigI := {|
  root := rootRoute;
  definitions := define ["home"];
  routes := [locale "home" "en" "/be"; locale "home" "be" "/"];
  defaultLanguage := "en";
  supportedLanguages := ["en"];
|}.

(** Two entries of one (key, language) pair. *)
Definition duplicates : LocaleAwareRouteConfigI := {|
  root := rootRoute;
  definitions := define ["home"];
  routes := [locale "home" "en" "/a"; locale "home" "en" "/b"];
  defaultLanguage := "en";
  supportedLanguages := ["en"];
|}.

(** The default language is not among the supported ones. *)
Definition defaultUnsupported : LocaleAwareRouteConfigI := {|
  root := rootRoute;
  definitions := define ["home"; "about"];
  routes := [locale "home" "en" "/be/x"; locale "about" "be" "/x"];
  defaultLanguage := "en";
  supportedLanguages := ["be"];
|}.

(** Scenario A with every language but the default one supported. *)
Definition defaultDropped : LocaleAwareRouteConfigI := {|
  root := rootRoute;
  definitions := define ["home"; "about"];
  routes := [locale "home" "en" "/"; locale "home" "be" "/";
             locale "about" "en" "/about"; locale "about" "be" "/over-ons"];
  defaultLanguage := "en";
  supportedLanguages := ["be"];
|}.

(** Scenario A with only the default language supported. *)
Definition onlyDefault : LocaleAwareRouteConfigI := {|
  root := rootRoute;
  definitions := define ["home"; "about"];
  routes := [locale "home" "en" "/"; locale "home" "be" "/";
             locale "about" "en" "/about"; locale "about" "be" "/over-ons"];
  defaultLanguage := "en";
  supportedLanguages := ["en"];
|}.


(** Scenario A with an entry whose key has no definition. *)
Definition unknownKey : LocaleAwareRouteConfigI := {|
  root := rootRoute;
  definitions := define ["home"; "about"];
  routes := [locale "home" "en" "/"; locale "contact" "en" "/contact";
             locale "about" "en" "/about"; locale "about" "be" "/over-ons"];
  defaultLanguage := "en";
  supportedLanguages := ["en"; "be"];
|}.


End Reference.

(** ** An engine that rewrites paths

    An engine with the path handling observed of the consumed one.  A
    route created at a path loses the path's leading slashes and gets as
    full path the parent's full path, a slash and the rest, with runs of
    slashes collapsed.  The index is keyed by the full path without its
    trailing slash; a route whose own path is empty is not indexed, and a
    key already taken is kept unless the new full path ends with a slash.
    [createRouter] throws when two routes have one id (under the root, the
    full path) or a route was given the empty path. *)

Module Trimming.

Record Route := {
  route_path : string;
  route_fullPath : string;
  route_component : option string;
}.

Fixpoint trimPathLeft (s : string) : string :=
  match s with
  | String a s' => if Ascii.eqb a "/" then trimPathLeft s' else s
  | EmptyString => s
  end.

Definition own_path (given : string) : string :=
  if given =? "/" then given else trimPathLeft given.

Fixpoint cleanPath (s : string) : string :=
  match s with
  | String a s' =>
      if Ascii.eqb a "/" && Js.startsWith s' "/" then cleanPath s'
      else String a (cleanPath s')
  | EmptyString => EmptyString
  end.

Definition joinPaths (a b : string) : string := cleanPath (a +:+ "/" +:+ b).

Definition trimPathRight (p : string) : string :=
  if p =? "/" then p
  else if Js.endsWith p "/" then Js.slice p 0 (Some (-1)%Z) else p.

Definition route_under (parent : Route) (given : string) (c : option string) : Route :=
  {| route_path := given;
     route_fullPath := joinPaths (route_fullPath parent) (own_path given);
     route_component := c |}.

Definition register (m : gmap string Route) (r : Route) : gmap string Route :=
  if own_path (route_path r) =? "" then m
  else
    let trimmedFullPath := trimPathRight (route_fullPath r) in
    match m !! trimmedFullPath with
    | Some _ =>
        if Js.endsWith (route_fullPath r) "/" then <[trimmedFullPath := r]> m else m
    | None => <[trimmedFullPath := r]> m
    end.

Definition index (rs : list Route) : gmap string Route := fold_left register rs ∅.

Definition accepts (rs : list Route) : bool :=
  bool_decide (NoDup (route_fullPath <$> rs)) &&
  forallb (fun r => negb (route_path r =? "")) rs.

#[export] Instance engine : Engine := {|
  Component := string;
  AnyRoute := Route;
  Router := gmap string Route;
  Store := Reference.History;
  Search := unit;
  Params := unit;
  NavState := string;
  truthy := fun s => negb (s =? "");
  createRoute := route_under;
  fullPath := route_fullPath;
  createRouter := fun _ rs => index rs;
  router_accepts := fun _ rs => accepts rs;
  routesByPath := fun rt => rt;
  buildLocation :=
    fun _ _ o => Reference.locate (BuildOptions.to o) (BuildOptions.hash o);
  location := Reference.current;
  router_navigate := fun _ o h => (Fulfilled, Reference.go o h);
  history_back := Reference.back;
|}.

Definition rootRoute : Route :=
  {| route_path := ""; route_fullPath := "/"; route_component := Some "Root" |}.

Definition define_one (k : string) : string * @RouteDefinitionI engine :=
  (k, @Build_RouteDefinitionI engine k).

Definition define (keys : list string) : gmap string (@RouteDefinitionI engine) :=
  list_to_map (List.map define_one keys).

(** Scenario A of the spec. *)
Definition scenarioA : LocaleAwareRouteConfigI := {|
  root := rootRoute;
  definitions := define ["home"; "about"];
  routes := [Reference.locale "home" "en" "/"; Reference.locale "home" "be" "/";
             Reference.locale "about" "en" "/about";
             Reference.locale "about" "be" "/over-ons"];
  defaultLanguage := "en";
  supportedLanguages := ["en"; "be"];
|}.

(** One entry, with a defined key and a supported language. *)
Definition single (rawPath : string) : LocaleAwareRouteConfigI := {|
  root := rootRoute;
  definitions := define ["about"];
  routes := [Reference.locale "about" "en" rawPath];
  defaultLanguage := "en";
  supportedLanguages := ["en"];
|}.

(** One entry listed twice. *)
Definition twice : LocaleAwareRouteConfigI := {|
  root := rootRoute;
  definitions := define ["about"];
  routes := [Reference.locale "about" "en" "/about";
             Reference.locale "about" "en" "/about"];
  defaultLanguage := "en";
  supportedLanguages := ["en"];
|}.

(** No definition at all, and an entry whose key names an inherited
    member. *)
Definition inheritedKey : LocaleAwareRouteConfigI := {|
  root := rootRoute;
  definitions := ∅;
  routes := [Reference.locale "constructor" "en" "/c"];
  defaultLanguage := "en";
  supportedLanguages := ["en"];
|}.

End Trimming.

Example slice_examples :
  Js.slice "/be/over-ons" 1 None = "be/over-ons" /\
  Js.slice "https://x.com/" 0 (Some (-1)%Z) = "https://x.com" /\
  Js.slice "" 0 (Some (-1)%Z) = "" /\
  Js.endsWith "https://x.com/" "/" = true /\
  Js.endsWith "https://x.com" "/" = false /\
  Js.startsWith "/be" "/" = true.
Proof. repeat split; reflexivity. Qed.

Example scenarioA_paths :
  path (constructor Reference.scenarioA) "home" "be" = "/be" /\
  path (constructor Reference.scenarioA) "about" "be" = "/be/over-ons" /\
  path (constructor Reference.scenarioA) "home" "en" = "/" /\
  hasRoute (constructor Reference.scenarioA) "about" "fr" = false /\
  absolute (constructor Reference.scenarioA) (Reference.at_path "/") "https://x.com/"
    (Reference.select "about" "be") = "https://x.com/be/over-ons".
Proof. repeat split; vm_compute; reflexivity. Qed.

(** ** The reference engine keeps the engine laws *)

Lemma reference_index_registered (rs : list Reference.Route) p r :
  Reference.index rs !! p = Some r -> r ∈ rs /\ Reference.route_fullPath r = p.
Proof.
  induction rs as [|a rs IH]; simpl; intros Hl.
  - rewrite lookup_empty in Hl. discriminate.
  - destruct (decide (Reference.route_fullPath a = p)) as [<-|Hne].
    + rewrite lookup_insert_eq in Hl. injection Hl as <-. split; [left|reflexivity].
    + rewrite lookup_insert_ne in Hl by exact Hne.
      destruct (IH Hl) as [Hin Hp]. split; [right; exact Hin|exact Hp].
Qed.

Lemma reference_index_indexed (rs : list Reference.Route) r :
  r ∈ rs -> is_Some (Reference.index rs !! Reference.route_fullPath r).
Proof.
  induction rs as [|a rs IH]; intros Hin.
  - inversion Hin.
  - simpl. destruct (decide (Reference.route_fullPath a = Reference.route_fullPath r)) as [Heq|Hne].
    + rewrite Heq, lookup_insert_eq. eexists; reflexivity.
    + rewrite lookup_insert_ne by exact Hne. apply IH.
      inversion Hin; subst; [congruence|assumption].
Qed.

#[export] Instance reference_laws : EngineLaws Reference.engine.
Proof.
  split.
  - reflexivity.
  - intros rt rs p r. apply reference_index_registered.
  - intros rt rs r. apply reference_index_indexed.
Qed.

Section Properties.
Context {E : Engine}.

(** *** Strings *)

Lemma append_empty_r (s : string) : s +:+ "" = s.
Proof.
  induction s as [|c s IH]; [reflexivity|].
  change (String c (s +:+ "") = String c s). now rewrite IH.
Qed.

Lemma append_cons c (s t : string) : String c s +:+ t = String c (s +:+ t).
Proof. reflexivity. Qed.

Lemma append_assoc (a b c : string) : (a +:+ b) +:+ c = a +:+ (b +:+ c).
Proof.
  induction a as [|x a IH]; [reflexivity|].
  rewrite !append_cons. now rewrite IH.
Qed.

Lemma length_append (a b : string) :
  String.length (a +:+ b) = String.length a + String.length b.
Proof.
  induction a as [|x a IH]; [reflexivity|].
  rewrite append_cons. simpl. now rewrite IH.
Qed.

Lemma substring_whole (s : string) : String.substring 0 (String.length s) s = s.
Proof. induction s as [|c s IH]; simpl; [reflexivity|now rewrite IH]. Qed.

Lemma substring_front (a b : string) :
  String.substring 0 (String.length a) (a +:+ b) = a.
Proof.
  induction a as [|c a IH]; simpl.
  - destruct b; reflexivity.
  - now rewrite IH.
Qed.

Lemma endsWith_cons c (s p : string) :
  Js.endsWith (String c s) p = (String c s =? p) || Js.endsWith s p.
Proof. reflexivity. Qed.

Lemma endsWith_spec (s p : string) :
  Js.endsWith s p = true <-> exists t, s = t +:+ p.
Proof.
  split.
  - induction s as [|c s IH].
    + destruct p; [now exists ""|discriminate].
    + rewrite endsWith_cons, orb_true_iff. intros [Heq|Hrest].
      * apply String.eqb_eq in Heq. now exists "".
      * destruct (IH Hrest) as [t ->]. now exists (String c t).
  - intros [t ->]. induction t as [|c t IH].
    + change ("" +:+ p) with p. destruct p; [reflexivity|].
      now rewrite endsWith_cons, String.eqb_refl.
    + rewrite append_cons, endsWith_cons, IH. apply orb_true_r.
Qed.

Lemma prefix_cons a b (s t : string) :
  String.prefix (String a s) (String b t) =
    if Ascii.ascii_dec a b then String.prefix s t else false.
Proof. reflexivity. Qed.

Lemma startsWith_slash (s : string) :
  Js.startsWith s "/" = true <-> exists t, s = "/" +:+ t.
Proof.
  unfold Js.startsWith. destruct s as [|c s].
  - split; [discriminate|intros [t Ht]; discriminate].
  - rewrite prefix_cons. destruct (Ascii.ascii_dec "/" c) as [<-|Hne].
    + split; [intros _; now exists s|intros _; now destruct s].
    + split; [discriminate|]. intros [t Ht].
      change ("/" +:+ t) with (String "/" t) in Ht.
      injection Ht as Hc _. congruence.
Qed.

(** [s.slice(1)] drops the first character. *)
Lemma slice_from_1 c (s : string) : Js.slice (String c s) 1 None = s.
Proof.
  unfold Js.slice. cbv zeta.
  set (len := Z.of_nat (String.length (String c s))).
  assert (Hlen : len = (Z.of_nat (String.length s) + 1)%Z)
    by (subst len; simpl String.length; lia).
  change (default len None) with len.
  change (1 <? 0)%Z with false. cbv iota.
  destruct (len <? 0)%Z eqn:Hneg; [lia|].
  replace (Z.to_nat (Z.min 1 len)) with 1 by lia.
  replace (Z.to_nat (Z.min len len - Z.min 1 len)) with (String.length s) by lia.
  simpl. apply substring_whole.
Qed.

(** [s.slice(0, -1)] drops the last character. *)
Lemma slice_to_last (s : string) c :
  Js.slice (s +:+ String c "") 0 (Some (-1)%Z) = s.
Proof.
  unfold Js.slice. cbv zeta. rewrite length_append.
  set (len := Z.of_nat (String.length s + String.length (String c ""))).
  assert (Hlen : len = (Z.of_nat (String.length s) + 1)%Z)
    by (subst len; simpl String.length; lia).
  change (0 <? 0)%Z with false. change (default len (Some (-1)%Z)) with (-1)%Z.
  change (-1 <? 0)%Z with true. cbv iota.
  replace (Z.to_nat (Z.min 0 len)) with 0 by lia.
  replace (Z.to_nat (Z.max (len + -1) 0 - Z.min 0 len)) with (String.length s) by lia.
  apply substring_front.
Qed.

Lemma strippedHref_empty : strippedHref "" = "".
Proof. reflexivity. Qed.

(** What [absolute] keeps of the base: all of it, or all but a final slash. *)
Lemma strippedBaseUrl_cases (baseUrl : string) :
  (Js.endsWith baseUrl "/" = true /\ baseUrl = strippedBaseUrl baseUrl +:+ "/") \/
  (Js.endsWith baseUrl "/" = false /\ strippedBaseUrl baseUrl = baseUrl).
Proof.
  unfold strippedBaseUrl. destruct (Js.endsWith baseUrl "/") eqn:He.
  - left. split; [reflexivity|].
    apply endsWith_spec in He as [t ->]. now rewrite slice_to_last.
  - right. split; reflexivity.
Qed.

(** What [absolute] keeps of the link: all of it, or all but a first slash. *)
Lemma strippedHref_cases (h : string) :
  (Js.startsWith h "/" = true /\ h = "/" +:+ strippedHref h) \/
  (Js.startsWith h "/" = false /\ strippedHref h = h).
Proof.
  unfold strippedHref. destruct (Js.startsWith h "/") eqn:Hs.
  - left. split; [reflexivity|].
    apply startsWith_slash in Hs as [t ->].
    change ("/" +:+ t) with (String "/" t). now rewrite slice_from_1.
  - right. split; reflexivity.
Qed.

(** *** The resolver's scan *)

Lemma matches_entry key language route :
  matches key language route = true <-> is_entry_for key language route.
Proof.
  unfold matches, is_entry_for. rewrite andb_true_iff, !String.eqb_eq. tauto.
Qed.

Lemma find_first_entry config key language route :
  first_entry_for config key language route ->
  List.find (matches key language) (routes config) = Some route.
Proof.
  intros (before & after & -> & Hr & Hb).
  induction before as [|b before IH]; simpl.
  - apply matches_entry in Hr. now rewrite Hr.
  - inversion Hb as [|? ? Hnb Hb']; subst.
    destruct (matches key language b) eqn:Hm.
    + apply matches_entry in Hm. contradiction.
    + apply IH. exact Hb'.
Qed.

Lemma find_is_first_entry config key language route :
  List.find (matches key language) (routes config) = Some route ->
  first_entry_for config key language route.
Proof.
  unfold first_entry_for. generalize (routes config) as l.
  induction l as [|a l IH]; simpl; [discriminate|].
  destruct (matches key language a) eqn:Hm.
  - intros [= <-]. exists [], l.
    split; [reflexivity|]. split; [apply matches_entry, Hm|constructor].
  - intros Hf. destruct (IH Hf) as (before & after & -> & Hr & Hb).
    exists (a :: before), after.
    split; [reflexivity|]. split; [exact Hr|].
    constructor; [|exact Hb]. intros Ha. apply matches_entry in Ha. congruence.
Qed.

Lemma find_no_entry config key language :
  (forall route, route ∈ routes config -> ~ is_entry_for key language route) ->
  List.find (matches key language) (routes config) = None.
Proof.
  generalize (routes config) as l.
  induction l as [|a l IH]; simpl; intros Hnone; [reflexivity|].
  destruct (matches key language a) eqn:Hm.
  - apply matches_entry in Hm. exfalso. apply (Hnone a); [left|exact Hm].
  - apply IH. intros r Hr. apply Hnone. right. exact Hr.
Qed.

(** *** The constructor's filter *)

Lemma compileRoute_Some config route r :
  compileRoute config route = Some r ->
  registers config route /\
  exists d, r = createRoute (root config) (concretePath config route) d.
Proof.
  unfold compileRoute, registers, Js.includes, concretePath.
  destruct (Js.get (definitions config) (RouteLocale.definition route)) as [d|]; [|discriminate].
  case_bool_decide as Hs; simpl; [|discriminate].
  intros [= <-]. split; [split; [eexists; reflexivity|exact Hs]|eexists; reflexivity].
Qed.


(** Whatever the resolver returns was registered by the constructor for an
    entry with that concrete path. *)
Lemma resolved_is_registered `{!EngineLaws E} config p r :
  routesByPath (_router (constructor config)) !! p = Some r ->
  fullPath r = p /\
  exists other, other ∈ routes config /\ registers config other /\
                concretePath config other = p.
Proof.
  simpl. intros Hl. apply routesByPath_registered in Hl as [Hin Hp].
  split; [exact Hp|].
  apply list_elem_of_omap in Hin as (other & Hin & Hc).
  apply compileRoute_Some in Hc as [Hreg [d ->]].
  rewrite fullPath_createRoute in Hp.
  exists other. auto.
Qed.


(** *** Path builder *)

(** C2: the path builder returns the raw path unchanged for the default
    language; for any other language it returns "/" + language + raw path,
    where a raw path of exactly "/" contributes the empty string, so the
    root route of a non-default language is "/" + language. *)
Theorem buildPath_prefix config language rawPath :
  (language = defaultLanguage config ->
     _buildPath config language rawPath = rawPath) /\
  (language <> defaultLanguage config ->
     _buildPath config language rawPath =
       "/" +:+ language +:+ (if rawPath =? "/" then "" else rawPath)) /\
  (language <> defaultLanguage config ->
     _buildPath config language "/" = "/" +:+ language).
Proof.
  unfold _buildPath. repeat split.
  - intros ->. now rewrite String.eqb_refl.
  - intros Hne. apply String.eqb_neq in Hne. now rewrite Hne.
  - intros Hne. apply String.eqb_neq in Hne. rewrite Hne. simpl.
    now rewrite append_empty_r.
Qed.

(** *** Resolution *)

Lemma unresolved_route `{!EngineLaws E} config key language :
  Js.get (definitions config) key = None \/
  (forall route, route ∈ routes config -> ~ is_entry_for key language route) \/
  (forall route other, first_entry_for config key language route ->
     other ∈ routes config -> registers config other ->
     concretePath config other <> concretePath config route) ->
  _route (constructor config) key language = None.
Proof.
  intros Hcases. unfold _route.
  change (_config (constructor config)) with config.
  destruct (Js.get (definitions config) key) as [d|] eqn:Hd; [|reflexivity].
  destruct Hcases as [Hnone|[Habsent|Hfree]]; [discriminate| |].
  - now rewrite (find_no_entry _ _ _ Habsent).
  - destruct (List.find _ _) as [route|] eqn:Hf; [|reflexivity].
    apply find_is_first_entry in Hf.
    destruct (routesByPath _ !! _) as [r|] eqn:Hl; [|reflexivity].
    apply resolved_is_registered in Hl as (_ & other & Hin & Hreg & Hp).
    exfalso. apply (Hfree route other Hf Hin Hreg).
    rewrite Hp. unfold concretePath.
    destruct Hf as (_ & _ & _ & [_ ->] & _). reflexivity.
Qed.

(** The part of C1 the code keeps: when reading the key in the definitions
    gives nothing, or the pair has no entry in the routes list, or the
    language is not supported and no registered entry has the concrete
    path of the pair's first entry, hasRoute is false and path is the
    empty string. *)
Lemma unresolved_pair_not_found `{!EngineLaws E} config key language :
  Js.get (definitions config) key = None \/
  (forall route, route ∈ routes config -> ~ is_entry_for key language route) \/
  ((language ∉ supportedLanguages config) /\
   forall route other, first_entry_for config key language route ->
     other ∈ routes config -> registers config other ->
     concretePath config other <> concretePath config route) ->
  hasRoute (constructor config) key language = false /\
  path (constructor config) key language = "".
Proof.
  intros Hcases. unfold hasRoute, path.
  rewrite unresolved_route; [split; reflexivity|].
  destruct Hcases as [?|[?|[_ ?]]]; auto.
Qed.

Lemma entry_has_first config key language entry :
  entry ∈ routes config -> is_entry_for key language entry ->
  exists route, first_entry_for config key language route.
Proof.
  intros Hin Hentry.
  destruct (List.find (matches key language) (routes config)) as [route|] eqn:Hf.
  - exists route. now apply find_is_first_entry.
  - apply list_elem_of_In in Hin.
    pose proof (find_none _ _ Hf _ Hin) as Hm.
    apply matches_entry in Hentry. congruence.
Qed.

Lemma first_entry_unique config key language route route' :
  first_entry_for config key language route ->
  first_entry_for config key language route' -> route = route'.
Proof.
  intros H1 H2. apply find_first_entry in H1, H2. congruence.
Qed.

Lemma first_entry_in config key language route :
  first_entry_for config key language route ->
  route ∈ routes config /\ is_entry_for key language route.
Proof.
  intros (before & after & Hroutes & Hentry & _). split; [|exact Hentry].
  rewrite Hroutes. apply elem_of_app. right. left.
Qed.

(** *** What the constructor asks of the engine *)


Lemma get_own {A : Type} (own : gmap string A) key a :
  own !! key = Some a -> Js.get own key = Some (Js.Own a).
Proof. intros Hk. unfold Js.get. now rewrite Hk. Qed.

Lemma registered_iff config route :
  route ∈ registered config <-> route ∈ routes config /\ registers config route.
Proof. unfold registered, registers. rewrite list_elem_of_filter. tauto. Qed.

(** The list the constructor hands to [createRouter]. *)
Lemma compiled_specs config :
  omap (compileRoute config) (routes config) =
  create (root config) (route_spec config <$> registered config).
Proof.
  unfold registered, create.
  induction (routes config) as [|a l IH]; [reflexivity|].
  rewrite filter_cons. cbn. unfold compileRoute at 1, Js.includes.
  destruct (decide _) as [[[d Hd] Hs]|Hno].
  - rewrite Hd, bool_decide_eq_true_2 by exact Hs. cbn.
    unfold route_spec at 1. rewrite Hd. cbn. f_equal. exact IH.
  - destruct (Js.get (definitions config) (RouteLocale.definition a)) as [d|] eqn:Hd;
      [|exact IH].
    case_bool_decide as Hs; simpl; [|exact IH].
    exfalso. apply Hno. split; [eexists; reflexivity|exact Hs].
Qed.

Lemma spec_paths config (l : list RouteLocaleI) :
  (route_spec config <$> l).*1 = concretePath config <$> l.
Proof. induction l as [|a l IH]; [reflexivity|]. cbn. now rewrite IH. Qed.

(** With normalised, pairwise distinct registered paths, the constructor
    returns and the index holds each registered entry's route at its
    concrete path. *)
Lemma normalised_registered_indexed config :
  IndexesNormalised E (root config) ->
  registers_normalised config ->
  new_LuwioRouter config = Some (constructor config) /\
  forall route, route ∈ registered config ->
    exists r, routesByPath (_router (constructor config)) !! concretePath config route = Some r
              /\ fullPath r = concretePath config route.
Proof.
  intros Hidx [Hnorm Hnodup].
  assert (Hspecs : Forall (fun spec => normalised spec.1 = true)
                     (route_spec config <$> registered config)).
  { apply Forall_fmap. exact Hnorm. }
  assert (Hpaths : NoDup (route_spec config <$> registered config).*1).
  { now rewrite spec_paths. }
  destruct (normalised_index _ Hspecs Hpaths) as [Haccepts Hlookup].
  split.
  - unfold new_LuwioRouter. cbv zeta. now rewrite compiled_specs, Haccepts.
  - intros route Hin. simpl. rewrite compiled_specs.
    exists (createRoute (root config) (concretePath config route) (route_spec config route).2).
    split.
    + apply Hlookup. exists (route_spec config route).2. split; [|reflexivity].
      apply list_elem_of_fmap. exists route. split; [reflexivity|exact Hin].
    + apply normalised_fullPath. rewrite Forall_forall in Hnorm. now apply Hnorm.
Qed.

(** C3 (amended): with an engine that keeps normalised paths, in a
    configuration whose registered entries have normalised, pairwise
    distinct concrete paths, when the pair appears as an entry of the
    routes list, its key has a definition and its language is supported,
    the constructor returns, hasRoute is true and path is the path
    builder's output for the first entry of the pair in list order; it is
    the output for the given entry when that is the pair's only entry. *)
Theorem first_entry_resolves config key language entry :
  IndexesNormalised E (root config) ->
  registers_normalised config ->
  entry ∈ routes config ->
  is_entry_for key language entry ->
  is_Some (definitions config !! key) ->
  language ∈ supportedLanguages config ->
  new_LuwioRouter config = Some (constructor config) /\
  hasRoute (constructor config) key language = true /\
  (exists route, first_entry_for config key language route /\
     path (constructor config) key language =
       _buildPath config (RouteLocale.language route) (RouteLocale.path route)) /\
  ((forall other, other ∈ routes config -> is_entry_for key language other ->
      other = entry) ->
   path (constructor config) key language =
     _buildPath config (RouteLocale.language entry) (RouteLocale.path entry)).
Proof.
  intros Hidx Hwf Hentry_in Hentry [d Hown] Hsup.
  pose proof (get_own _ _ _ Hown) as Hdef.
  destruct (normalised_registered_indexed config Hidx Hwf) as [Hnew Hindexed].
  destruct (entry_has_first _ _ _ _ Hentry_in Hentry) as [route Hfirst].
  pose proof (find_first_entry _ _ _ _ Hfirst) as Hfind.
  destruct (first_entry_in _ _ _ _ Hfirst) as [Hin [Hk Hl]].
  assert (Hreg : route ∈ registered config).
  { apply registered_iff. split; [exact Hin|].
    split; [rewrite Hk, Hdef; eexists; reflexivity|now rewrite Hl]. }
  destruct (Hindexed route Hreg) as (r & Hr & Hfp).
  assert (Hroute : _route (constructor config) key language = Some r).
  { unfold _route. change (_config (constructor config)) with config.
    rewrite Hdef, Hfind. cbv zeta.
    unfold concretePath in Hr. rewrite Hl in Hr. exact Hr. }
  assert (Hpath : path (constructor config) key language =
                  _buildPath config (RouteLocale.language route) (RouteLocale.path route)).
  { unfold path. rewrite Hroute. exact Hfp. }
  split; [exact Hnew|]. split; [|split].
  - unfold hasRoute. now rewrite Hroute.
  - exists route. split; [exact Hfirst|exact Hpath].
  - intros Honly. rewrite <- (Honly route Hin (conj Hk Hl)). exact Hpath.
Qed.

(** C9: when the routes list has several entries of one (key, language)
    pair, resolution goes through the first of them in list order.  For a
    key that reads as something in the definitions, the resolver returns
    what the index holds at the first entry's concrete path, and path,
    hasRoute, isActive and href follow it.  navigate to the pair hands the
    engine that route's full path as [to], or rejects naming the pair;
    navigate from the pair hands the engine that route's full path as
    [from], or rejects naming the pair. *)
Theorem resolution_first_match config key language route :
  first_entry_for config key language route ->
  is_Some (Js.get (definitions config) key) ->
  _route (constructor config) key language = indexed config route /\
  path (constructor config) key language =
    match indexed config route with Some r => fullPath r | None => "" end /\
  hasRoute (constructor config) key language =
    match indexed config route with Some _ => true | None => false end /\
  (forall st, isActive (constructor config) st key language =
    match indexed config route with
    | Some r => ParsedLocation.pathname (location st) =? fullPath r
    | None => false
    end) /\
  (forall st q pa h,
    href (constructor config) st
      {| href_key := key; href_language := language; href_query := q;
         href_params := pa; href_hash := h |} =
    match indexed config route with
    | Some r =>
        ParsedLocation.href
          (buildLocation (_router (constructor config)) st
             (BuildOptions.mk (fullPath r) q pa (Js.truthy_string h)))
    | None => ""
    end) /\
  (forall q pa h m s w,
    navigate (constructor config)
      {| nav_to := LanguageAwareRoute.mk key language; nav_from := None;
         nav_query := q; nav_params := pa; nav_hash := h; nav_method := m;
         nav_state := s |} w =
    match indexed config route with
    | Some r =>
        (fst (router_navigate (_router (constructor config))
                (NavigateOptions.mk (fullPath r) None q pa
                   (match h with
                    | Some x => if x =? "" then None else Some x
                    | None => None
                    end) m
                   (match s with
                    | Some x => if truthy x then Some x else None
                    | None => None
                    end))
                (store w)),
         {| store :=
              snd (router_navigate (_router (constructor config))
                     (NavigateOptions.mk (fullPath r) None q pa
                        (match h with
                         | Some x => if x =? "" then None else Some x
                         | None => None
                         end) m
                        (match s with
                         | Some x => if truthy x then Some x else None
                         | None => None
                         end))
                     (store w));
            calls :=
              (calls w ++
               [CallNavigate
                  (NavigateOptions.mk (fullPath r) None q pa
                     (match h with
                      | Some x => if x =? "" then None else Some x
                      | None => None
                      end) m
                     (match s with
                      | Some x => if truthy x then Some x else None
                      | None => None
                      end))])%list |})
    | None =>
        (Rejected {| message :=
           "Route (to) for key " +:+ Js.dquote +:+ key +:+ Js.dquote
           +:+ " and language " +:+ Js.dquote +:+ language +:+ Js.dquote
           +:+ " not found." |}, w)
    end) /\
  (forall to toRoute q pa h m s w,
    _route (constructor config) (LanguageAwareRoute.key to)
      (LanguageAwareRoute.language to) = Some toRoute ->
    navigate (constructor config)
      {| nav_to := to; nav_from := Some (LanguageAwareRoute.mk key language);
         nav_query := q; nav_params := pa; nav_hash := h; nav_method := m;
         nav_state := s |} w =
    match indexed config route with
    | Some r =>
        (fst (router_navigate (_router (constructor config))
                (NavigateOptions.mk (fullPath toRoute) (Some (fullPath r)) q pa
                   (match h with
                    | Some x => if x =? "" then None else Some x
                    | None => None
                    end) m
                   (match s with
                    | Some x => if truthy x then Some x else None
                    | None => None
                    end))
                (store w)),
         {| store :=
              snd (router_navigate (_router (constructor config))
                     (NavigateOptions.mk (fullPath toRoute) (Some (fullPath r)) q pa
                        (match h with
                         | Some x => if x =? "" then None else Some x
                         | None => None
                         end) m
                        (match s with
                         | Some x => if truthy x then Some x else None
                         | None => None
                         end))
                     (store w));
            calls :=
              (calls w ++
               [CallNavigate
                  (NavigateOptions.mk (fullPath toRoute) (Some (fullPath r)) q pa
                     (match h with
                      | Some x => if x =? "" then None else Some x
                      | None => None
                      end) m
                     (match s with
                      | Some x => if truthy x then Some x else None
                      | None => None
                      end))])%list |})
    | None =>
        (Rejected {| message :=
           "Route (from) for key " +:+ Js.dquote +:+ key +:+ Js.dquote
           +:+ " and language " +:+ Js.dquote +:+ language +:+ Js.dquote
           +:+ " not found." |}, w)
    end).
Proof.
  intros Hfirst [d Hd].
  assert (Hroute : _route (constructor config) key language = indexed config route).
  { unfold _route, indexed. change (_config (constructor config)) with config.
    rewrite Hd, (find_first_entry _ _ _ _ Hfirst). cbv zeta. unfold concretePath.
    destruct Hfirst as (_ & _ & _ & [_ ->] & _). reflexivity. }
  split; [exact Hroute|].
  split; [unfold path; now rewrite Hroute|].
  split; [unfold hasRoute; now rewrite Hroute|].
  split; [intros st; unfold isActive; cbv zeta; now rewrite Hroute|].
  split; [|split].
  - intros st q pa h. unfold href. simpl href_key. simpl href_language.
    rewrite Hroute. reflexivity.
  - intros q pa h m s w. unfold navigate. cbv zeta.
    simpl nav_to. simpl nav_from.
    simpl LanguageAwareRoute.key. simpl LanguageAwareRoute.language.
    rewrite Hroute. destruct (indexed config route) as [r|]; [|reflexivity].
    unfold invoke_navigate.
    change (navigate_options _ r None) with
      (NavigateOptions.mk (fullPath r) None q pa
         (match h with Some x => if x =? "" then None else Some x | None => None end) m
         (match s with Some x => if truthy x then Some x else None | None => None end)).
    destruct (router_navigate _ _ _). reflexivity.
  - intros to toRoute q pa h m s w Hto. unfold navigate. cbv zeta.
    simpl nav_to. simpl nav_from. rewrite Hto.
    simpl LanguageAwareRoute.key. simpl LanguageAwareRoute.language.
    rewrite Hroute. destruct (indexed config route) as [r|]; [|reflexivity].
    unfold invoke_navigate.
    change (navigate_options _ toRoute (Some r)) with
      (NavigateOptions.mk (fullPath toRoute) (Some (fullPath r)) q pa
         (match h with Some x => if x =? "" then None else Some x | None => None end) m
         (match s with Some x => if truthy x then Some x else None | None => None end)).
    destruct (router_navigate _ _ _). reflexivity.
Qed.

(** The part of C10 the code keeps: when the default language is not
    supported, the constructor drops every entry in the default language,
    although the path builder leaves their raw path unprefixed; hasRoute is
    then false and path empty for a key in the default language, provided
    no registered entry has the raw path of the key's first entry as its
    concrete path. *)
Lemma default_language_unsupported `{!EngineLaws E} config :
  defaultLanguage config ∉ supportedLanguages config ->
  (forall route, RouteLocale.language route = defaultLanguage config ->
     compileRoute config route = None /\ concretePath config route = RouteLocale.path route) /\
  (forall key,
     (forall route other, first_entry_for config key (defaultLanguage config) route ->
        other ∈ routes config -> registers config other ->
        concretePath config other <> RouteLocale.path route) ->
     hasRoute (constructor config) key (defaultLanguage config) = false /\
     path (constructor config) key (defaultLanguage config) = "").
Proof.
  intros Hunsupported. split.
  - intros route Hlang. split.
    + unfold compileRoute, Js.includes.
      destruct (Js.get (definitions config) _); [|reflexivity].
      rewrite Hlang. now rewrite bool_decide_eq_false_2.
    + unfold concretePath. now apply buildPath_prefix.
  - intros key Hfree. unfold hasRoute, path.
    rewrite unresolved_route; [split; reflexivity|].
    right. right. intros route other Hfirst Hin Hreg.
    replace (concretePath config route) with (RouteLocale.path route).
    + now apply Hfree.
    + destruct Hfirst as (_ & _ & _ & [_ Hl] & _).
      unfold concretePath. symmetry. now apply buildPath_prefix.
Qed.

(** *** Navigation *)

Lemma hasRoute_false this key language :
  hasRoute this key language = false <-> _route this key language = None.
Proof. unfold hasRoute. destruct (_route this key language); split; congruence. Qed.

Lemma hasRoute_true this key language :
  hasRoute this key language = true <-> is_Some (_route this key language).
Proof.
  unfold hasRoute. destruct (_route this key language); split; try congruence.
  - intros _. eexists; reflexivity.
  - intros [? ?]. discriminate.
Qed.

(** C4: a navigate call whose [to] does not resolve is rejected with the
    message naming the side (to), the key and the language; one whose [to]
    resolves and whose supplied [from] does not is rejected with the same
    message for the side (from). *)
Theorem navigate_rejects_unresolved this p w :
  (hasRoute this (LanguageAwareRoute.key (nav_to p))
     (LanguageAwareRoute.language (nav_to p)) = false ->
   fst (navigate this p w) =
     Rejected {| message :=
       "Route (to) for key " +:+ Js.dquote +:+ LanguageAwareRoute.key (nav_to p)
       +:+ Js.dquote +:+ " and language " +:+ Js.dquote
       +:+ LanguageAwareRoute.language (nav_to p) +:+ Js.dquote +:+ " not found." |}) /\
  (forall from,
   nav_from p = Some from ->
   hasRoute this (LanguageAwareRoute.key (nav_to p))
     (LanguageAwareRoute.language (nav_to p)) = true ->
   hasRoute this (LanguageAwareRoute.key from) (LanguageAwareRoute.language from) = false ->
   fst (navigate this p w) =
     Rejected {| message :=
       "Route (from) for key " +:+ Js.dquote +:+ LanguageAwareRoute.key from
       +:+ Js.dquote +:+ " and language " +:+ Js.dquote
       +:+ LanguageAwareRoute.language from +:+ Js.dquote +:+ " not found." |}).
Proof.
  split.
  - intros Hto. apply hasRoute_false in Hto. unfold navigate. cbv zeta.
    now rewrite Hto.
  - intros from Hfrom Hto Hnone. apply hasRoute_true in Hto as [r Hto].
    apply hasRoute_false in Hnone. unfold navigate. cbv zeta.
    now rewrite Hto, Hfrom, Hnone.
Qed.

(** C5: a navigate call that rejects because [to] or the supplied [from]
    does not resolve leaves the world as it was: the engine's store is
    untouched and no call of the engine's navigation is recorded. *)
Theorem navigate_rejection_leaves_engine this p w :
  hasRoute this (LanguageAwareRoute.key (nav_to p))
    (LanguageAwareRoute.language (nav_to p)) = false \/
  (exists from, nav_from p = Some from /\
     hasRoute this (LanguageAwareRoute.key from)
       (LanguageAwareRoute.language from) = false) ->
  (exists e, fst (navigate this p w) = Rejected e) /\
  snd (navigate this p w) = w.
Proof.
  unfold navigate. cbv zeta. intros [Hto|(from & Hfrom & Hnone)].
  - apply hasRoute_false in Hto. rewrite Hto. split; [eexists|]; reflexivity.
  - apply hasRoute_false in Hnone. rewrite Hfrom.
    destruct (_route this (LanguageAwareRoute.key (nav_to p)) _) as [toRoute|].
    + rewrite Hnone. split; [eexists|]; reflexivity.
    + split; [eexists|]; reflexivity.
Qed.

(** The other side of C5: a call whose selectors resolve does reach the
    engine, once, at the end of the trace. *)
Lemma navigate_resolved_delegates this p w toRoute :
  _route this (LanguageAwareRoute.key (nav_to p))
    (LanguageAwareRoute.language (nav_to p)) = Some toRoute ->
  nav_from p = None ->
  calls (snd (navigate this p w)) =
    (calls w ++ [CallNavigate (navigate_options p toRoute None)])%list.
Proof.
  intros Hto Hfrom. unfold navigate. cbv zeta. rewrite Hto, Hfrom.
  unfold invoke_navigate. destruct (router_navigate _ _ _). reflexivity.
Qed.

(** *** Active route *)

(** C8: for a location whose pathname is not empty (a browser pathname
    begins with a slash), isActive is true exactly when the pathname equals
    path(key, language); it is false whenever the pair does not resolve. *)
Theorem isActive_iff_pathname this st key language :
  ParsedLocation.pathname (location st) <> "" ->
  (isActive this st key language = true <->
     ParsedLocation.pathname (location st) = path this key language) /\
  (hasRoute this key language = false -> isActive this st key language = false).
Proof.
  intros Hnonempty. unfold isActive, path, hasRoute. cbv zeta.
  destruct (_route this key language) as [r|].
  - split; [apply String.eqb_eq|discriminate].
  - split; [|reflexivity]. split; [discriminate|]. intros Hp. contradiction.
Qed.

(** *** Absolute links *)

(** C7 (amended): for a pair that does not resolve, href is the empty
    string and absolute yields baseUrl + "/" when baseUrl does not end with
    a slash, and baseUrl itself when it does. *)
Theorem absolute_unresolved this st baseUrl p :
  hasRoute this (href_key p) (href_language p) = false ->
  href this st p = "" /\
  absolute this st baseUrl p =
    if Js.endsWith baseUrl "/" then baseUrl else baseUrl +:+ "/".
Proof.
  intros Hnone. apply hasRoute_false in Hnone.
  assert (Hhref : href this st p = "") by (unfold href; now rewrite Hnone).
  split; [exact Hhref|].
  unfold absolute. rewrite Hhref, strippedHref_empty.
  destruct (strippedBaseUrl_cases baseUrl) as [[-> Hb]|[-> ->]].
  - now rewrite Hb at 2.
  - reflexivity.
Qed.

Lemma slash_at_last_endsWith (b : string) i :
  String.length b = S i -> slash_at b i = true -> Js.endsWith b "/" = true.
Proof.
  revert i. induction b as [|c b IH]; intros i Hlen Hslash; [discriminate|].
  injection Hlen as Hlen. rewrite endsWith_cons.
  destruct b as [|d b'].
  - simpl in Hlen. subst i. unfold slash_at in Hslash. simpl in Hslash.
    apply Ascii.eqb_eq in Hslash. subst c. reflexivity.
  - destruct i as [|i']; [discriminate|].
    rewrite (IH i' Hlen); [apply orb_true_r|exact Hslash].
Qed.

Lemma slash_at_first_startsWith (h : string) :
  slash_at h 0 = true -> Js.startsWith h "/" = true.
Proof.
  intros Hc. unfold slash_at in Hc.
  destruct h as [|c h]; simpl in Hc; [discriminate|].
  apply Ascii.eqb_eq in Hc. subst c.
  apply startsWith_slash. now exists h.
Qed.

Lemma get_append_at (b x : string) :
  String.get (String.length b) (b +:+ x) = String.get 0 x.
Proof. symmetry. apply (append_correct2 b x 0). Qed.

Lemma get_append_after (b x : string) :
  String.get (S (String.length b)) (b +:+ x) = String.get 1 x.
Proof. symmetry. apply (append_correct2 b x 1). Qed.

(** Joining two parts with one slash: the slash is where the left part
    ends, and it has no slash beside it unless a part brings one. *)
Lemma join_single_slash (b h : string) :
  Js.endsWith b "/" = false -> Js.startsWith h "/" = false ->
  slash_at (b +:+ "/" +:+ h) (String.length b) = true /\
  double_slash_at_join (b +:+ "/" +:+ h) (String.length b) = false.
Proof.
  intros Hb Hh. split.
  - unfold slash_at. rewrite get_append_at. reflexivity.
  - unfold double_slash_at_join. apply orb_false_iff. split.
    + destruct (slash_at _ (S _)) eqn:Hs; [|reflexivity].
      unfold slash_at in Hs. rewrite get_append_after in Hs.
      apply slash_at_first_startsWith in Hs. congruence.
    + destruct (String.length b) as [|i] eqn:Hlen; [reflexivity|].
      destruct (slash_at _ i) eqn:Hs; [|reflexivity].
      unfold slash_at in Hs.
      rewrite <- (append_correct1 b ("/" +:+ h) i) in Hs by lia.
      apply (slash_at_last_endsWith b i Hlen) in Hs. congruence.
Qed.

Lemma strippedBaseUrl_no_slash (baseUrl : string) :
  Js.endsWith baseUrl "//" = false ->
  Js.endsWith (strippedBaseUrl baseUrl) "/" = false.
Proof.
  intros Hdouble.
  destruct (strippedBaseUrl_cases baseUrl) as [[_ Hb]|[Hn ->]]; [|exact Hn].
  destruct (Js.endsWith (strippedBaseUrl baseUrl) "/") eqn:He; [|reflexivity].
  apply endsWith_spec in He as [t Ht].
  assert (Hends : Js.endsWith baseUrl "//" = true).
  { apply endsWith_spec. exists t. rewrite Hb, Ht. now rewrite append_assoc. }
  congruence.
Qed.

Lemma strippedHref_no_slash (h : string) :
  Js.startsWith h "//" = false ->
  Js.startsWith (strippedHref h) "/" = false.
Proof.
  intros Hdouble.
  destruct (strippedHref_cases h) as [[_ Hh]|[Hn ->]]; [|exact Hn].
  destruct (Js.startsWith (strippedHref h) "/") eqn:Hs; [|reflexivity].
  apply startsWith_slash in Hs as [t Ht].
  rewrite Hh, Ht in Hdouble.
  unfold Js.startsWith in Hdouble.
  change ("/" +:+ ("/" +:+ t)) with (String "/" (String "/" t)) in Hdouble.
  rewrite !prefix_cons in Hdouble. simpl in Hdouble. destruct t; discriminate.
Qed.

(** C6 (amended): when baseUrl does not end with two slashes and the href
    does not begin with two slashes, absolute joins them with exactly one
    slash: the separating slash has no slash right before or after it,
    whether or not baseUrl ends with a slash or the href begins with one. *)
Theorem absolute_single_slash_join this st baseUrl p :
  Js.endsWith baseUrl "//" = false ->
  Js.startsWith (href this st p) "//" = false ->
  slash_at (absolute this st baseUrl p) (String.length (strippedBaseUrl baseUrl)) = true /\
  double_slash_at_join (absolute this st baseUrl p)
    (String.length (strippedBaseUrl baseUrl)) = false.
Proof.
  intros Hb Hh. unfold absolute. apply join_single_slash.
  - now apply strippedBaseUrl_no_slash.
  - now apply strippedHref_no_slash.
Qed.

End Properties.

(** ** Both engines keep normalised paths *)

Lemma reference_index_distinct (rootRoute : Reference.Route)
    (specs : list (string * option string)) p c :
  NoDup specs.*1 -> (p, c) ∈ specs ->
  Reference.index (@create Reference.engine rootRoute specs) !! p =
    Some (@createRoute Reference.engine rootRoute p c).
Proof.
  induction specs as [|[p0 c0] specs IH]; intros Hnd Hin; [inversion Hin|].
  apply NoDup_cons in Hnd as [Hfresh Hnd].
  change (Reference.index (@create Reference.engine rootRoute ((p0, c0) :: specs)))
    with (<[p0 := @createRoute Reference.engine rootRoute p0 c0]>
            (Reference.index (@create Reference.engine rootRoute specs))).
  apply elem_of_cons in Hin as [[= -> ->]|Hin].
  - apply lookup_insert_eq.
  - rewrite lookup_insert_ne; [now apply IH|].
    intros ->. apply Hfresh. apply list_elem_of_fmap. now exists (p, c).
Qed.

#[export] Instance reference_indexes (rootRoute : Reference.Route) :
  IndexesNormalised Reference.engine rootRoute.
Proof.
  split.
  - reflexivity.
  - intros specs _ Hnd. split; [reflexivity|]. intros p r. split.
    + intros Hl. apply reference_index_registered in Hl as [Hin Hp].
      apply list_elem_of_fmap in Hin as ([p' c] & -> & Hin).
      simpl in Hp. subst p'. exists c. split; [exact Hin|reflexivity].
    + intros (c & Hin & ->). now apply reference_index_distinct.
Qed.

Lemma startsWith_slash_cons a (s : string) :
  Js.startsWith (String a s) "/" = Ascii.eqb a "/".
Proof.
  unfold Js.startsWith. rewrite prefix_cons.
  destruct (Ascii.ascii_dec "/" a) as [<-|Hne].
  - now destruct s.
  - symmetry. apply Ascii.eqb_neq. congruence.
Qed.

Lemma trimPathLeft_kept (t : string) :
  Js.startsWith t "/" = false -> Trimming.trimPathLeft t = t.
Proof.
  destruct t as [|a t]; [reflexivity|].
  rewrite startsWith_slash_cons. simpl. now intros ->.
Qed.

Lemma cleanPath_kept (t : string) :
  has_double_slash t = false -> Trimming.cleanPath t = t.
Proof.
  induction t as [|a t IH]; [reflexivity|].
  simpl. intros Hd. apply orb_false_iff in Hd as [Hhere Hrest].
  rewrite Hhere. now rewrite IH.
Qed.

(** A normalised path is "/" or a slash followed by a rest that is not
    empty and begins with no slash. *)
Lemma normalised_cases (p : string) :
  normalised p = true ->
  p = "/" \/
  exists t, p = String "/" t /\ t <> "" /\ Js.startsWith t "/" = false /\
            has_double_slash t = false /\ Js.endsWith p "/" = false.
Proof.
  unfold normalised. intros Hn.
  apply andb_true_iff in Hn as [Hn Hend]. apply andb_true_iff in Hn as [Hstart Hdouble].
  apply negb_true_iff in Hdouble.
  destruct (p =? "/") eqn:Hroot; [left; now apply String.eqb_eq|right].
  apply String.eqb_neq in Hroot. simpl in Hend. apply negb_true_iff in Hend.
  apply startsWith_slash in Hstart as [t ->].
  change ("/" +:+ t) with (String "/" t) in *.
  simpl in Hdouble. apply orb_false_iff in Hdouble as [Hhere Hrest].
  exists t. repeat split; try assumption.
  intros ->. now apply Hroot.
Qed.

Lemma cleanPath_cons a (s : string) :
  Trimming.cleanPath (String a s) =
    if Ascii.eqb a "/" && Js.startsWith s "/" then Trimming.cleanPath s
    else String a (Trimming.cleanPath s).
Proof. reflexivity. Qed.

Lemma own_path_kept (t : string) :
  t <> "" -> Js.startsWith t "/" = false -> Trimming.own_path (String "/" t) = t.
Proof.
  intros Ht Hs. unfold Trimming.own_path.
  destruct (String "/" t =? "/") eqn:Hroot.
  - apply String.eqb_eq in Hroot. injection Hroot as ->. now contradiction Ht.
  - change (Trimming.trimPathLeft (String "/" t)) with (Trimming.trimPathLeft t).
    now apply trimPathLeft_kept.
Qed.

Lemma trimming_fullPath p c :
  normalised p = true ->
  Trimming.route_fullPath (Trimming.route_under Trimming.rootRoute p c) = p.
Proof.
  intros Hn. destruct (normalised_cases p Hn) as [->|(t & -> & Ht & Hs & Hd & _)];
    [reflexivity|].
  change (Trimming.route_fullPath (Trimming.route_under Trimming.rootRoute (String "/" t) c))
    with (Trimming.cleanPath ("/" +:+ "/" +:+ Trimming.own_path (String "/" t))).
  rewrite (own_path_kept t Ht Hs).
  change ("/" +:+ "/" +:+ t) with (String "/" (String "/" t)).
  rewrite cleanPath_cons, startsWith_slash_cons. simpl andb. cbv iota.
  rewrite cleanPath_cons, Hs, andb_false_r. now rewrite (cleanPath_kept t Hd).
Qed.

Lemma trimming_register (m : gmap string Trimming.Route) p c :
  normalised p = true -> m !! p = None ->
  Trimming.register m (Trimming.route_under Trimming.rootRoute p c) =
    <[p := Trimming.route_under Trimming.rootRoute p c]> m.
Proof.
  intros Hn Hfree. unfold Trimming.register. cbv zeta.
  rewrite (trimming_fullPath p c Hn).
  change (Trimming.route_path (Trimming.route_under Trimming.rootRoute p c)) with p.
  assert (Hown : (Trimming.own_path p =? "") = false).
  { destruct (normalised_cases p Hn) as [->|(t & -> & Ht & Hs & _)]; [reflexivity|].
    rewrite (own_path_kept t Ht Hs). now apply String.eqb_neq. }
  assert (Htrim : Trimming.trimPathRight p = p).
  { destruct (normalised_cases p Hn) as [->|(t & -> & _ & _ & _ & Hend)]; [reflexivity|].
    unfold Trimming.trimPathRight.
    destruct (String "/" t =? "/"); [reflexivity|]. now rewrite Hend. }
  now rewrite Hown, Htrim, Hfree.
Qed.

Lemma trimming_fold (specs : list (string * option string)) :
  forall m : gmap string Trimming.Route,
  Forall (fun spec => normalised spec.1 = true) specs ->
  NoDup specs.*1 ->
  (forall p, p ∈ specs.*1 -> m !! p = None) ->
  forall k r,
    fold_left Trimming.register (@create Trimming.engine Trimming.rootRoute specs) m !! k
      = Some r <->
    m !! k = Some r \/
    exists c, (k, c) ∈ specs /\ r = Trimming.route_under Trimming.rootRoute k c.
Proof.
  induction specs as [|[p0 c0] specs IH]; intros m Hn Hnd Hfree k r.
  - simpl. split; [now left|]. intros [?|(c & Hin & _)]; [assumption|inversion Hin].
  - apply Forall_cons in Hn as [Hn0 Hn]. apply NoDup_cons in Hnd as [Hfresh Hnd].
    change (fold_left Trimming.register
              (@create Trimming.engine Trimming.rootRoute ((p0, c0) :: specs)) m)
      with (fold_left Trimming.register
              (@create Trimming.engine Trimming.rootRoute specs)
              (Trimming.register m (Trimming.route_under Trimming.rootRoute p0 c0))).
    rewrite (trimming_register m p0 c0 Hn0) by (apply Hfree; left).
    rewrite IH; [|exact Hn|exact Hnd|].
    + destruct (decide (p0 = k)) as [<-|Hne].
      * rewrite lookup_insert_eq, (Hfree p0) by left. split.
        -- intros [[= <-]|(c & Hin & _)].
           ++ right. exists c0. split; [left|reflexivity].
           ++ exfalso. apply Hfresh. apply list_elem_of_fmap. now exists (p0, c).
        -- intros [?|(c & Hin & ->)]; [discriminate|].
           apply elem_of_cons in Hin as [[= ->]|Hin]; [now left|].
           exfalso. apply Hfresh. apply list_elem_of_fmap. now exists (p0, c).
      * rewrite lookup_insert_ne by exact Hne. split.
        -- intros [?|(c & Hin & ->)]; [now left|].
           right. exists c. split; [now right|reflexivity].
        -- intros [?|(c & Hin & ->)]; [now left|].
           apply elem_of_cons in Hin as [[= ? ?]|Hin]; [congruence|].
           right. exists c. split; [exact Hin|reflexivity].
    + intros p Hp. rewrite lookup_insert_ne; [apply Hfree; now right|].
      intros ->. contradiction.
Qed.

Lemma trimming_accepts (specs : list (string * option string)) :
  Forall (fun spec => normalised spec.1 = true) specs ->
  NoDup specs.*1 ->
  Trimming.accepts (@create Trimming.engine Trimming.rootRoute specs) = true.
Proof.
  intros Hn Hnd. unfold Trimming.accepts. apply andb_true_iff. split.
  - apply bool_decide_eq_true_2.
    replace (Trimming.route_fullPath <$> @create Trimming.engine Trimming.rootRoute specs)
      with specs.*1; [exact Hnd|].
    clear Hnd. induction Hn as [|[p c] specs Hp _ IH]; [reflexivity|].
    change (p :: specs.*1 =
            Trimming.route_fullPath (Trimming.route_under Trimming.rootRoute p c)
              :: (Trimming.route_fullPath <$>
                    @create Trimming.engine Trimming.rootRoute specs)).
    rewrite <- IH. f_equal. symmetry. now apply (trimming_fullPath p c).
  - apply forallb_forall. intros r Hin. apply in_map_iff in Hin as ([p c] & <- & Hin).
    rewrite Forall_forall in Hn. apply list_elem_of_In in Hin.
    specialize (Hn _ Hin). simpl in Hn.
    apply negb_true_iff, String.eqb_neq. simpl. intros ->. discriminate.
Qed.

#[export] Instance trimming_indexes : IndexesNormalised Trimming.engine Trimming.rootRoute.
Proof.
  split.
  - intros p c. apply trimming_fullPath.
  - intros specs Hn Hnd. split; [now apply trimming_accepts|].
    intros p r.
    pose proof (trimming_fold specs ∅ Hn Hnd (fun q _ => lookup_empty q) p r) as Hfold.
    rewrite lookup_empty in Hfold. split.
    + intros Hl. apply Hfold in Hl as [?|?]; [discriminate|assumption].
    + intros Hin. apply Hfold. now right.
Qed.

(** ** The statements at concrete configurations *)

(** C2 on scenario A: the default language, another language, and the
    root route of another language. *)
Lemma buildPath_prefix_witness :
  _buildPath Reference.scenarioA "en" "/about" = "/about" /\
  _buildPath Reference.scenarioA "be" "/over-ons" = "/be/over-ons" /\
  _buildPath Reference.scenarioA "be" "/" = "/be".
Proof.
  split; [|split].
  - apply (buildPath_prefix Reference.scenarioA "en" "/about"). reflexivity.
  - apply (buildPath_prefix Reference.scenarioA "be" "/over-ons"). discriminate.
  - apply (buildPath_prefix Reference.scenarioA "be" "/"). discriminate.
Defined.

(** C1: the claim fails on [Reference.sharedPath]: "be" is not supported,
    yet hasRoute("home", "be") is true and path("home", "be") is "/be", the
    route registered for the entry (home, en, "/be"). *)
Theorem unsupported_language_resolves :
  Js.includes (supportedLanguages Reference.sharedPath) "be" = false /\
  hasRoute (constructor Reference.sharedPath) "home" "be" = true /\
  path (constructor Reference.sharedPath) "home" "be" = "/be".
Proof. repeat split; vm_compute; reflexivity. Qed.

(** An unsupported language whose concrete path no registered entry has. *)
Example unresolved_pair_not_found_example :
  hasRoute (constructor Reference.onlyDefault) "about" "be" = false /\
  path (constructor Reference.onlyDefault) "about" "be" = "".
Proof.
  apply (unresolved_pair_not_found Reference.onlyDefault "about" "be").
  right. right. split.
  - intros Hin. apply list_elem_of_In in Hin. simpl in Hin. intuition discriminate.
  - intros route other Hfirst Hin [_ Hsup].
    apply find_first_entry in Hfirst. vm_compute in Hfirst. injection Hfirst as <-.
    apply list_elem_of_In in Hin. apply list_elem_of_In in Hsup.
    simpl in Hin, Hsup.
    destruct Hin as [<-|[<-|[<-|[<-|[]]]]]; simpl in Hsup;
      try (vm_compute; discriminate); intuition discriminate.
Qed.

(** C3 as stated fails in four ways, each for an entry with a defined key
    and a supported language.  On [Reference.duplicates] the path builder
    gives the second entry (home, en, "/b") the path "/b", and
    path("home", "en") is "/a".  With the engine that rewrites paths, the
    single entry (about, en, "/about/") is registered and hasRoute is
    false, and so it is for (about, en, "about"); for an entry listed
    twice the constructor throws. *)
Lemma entry_resolution_fails :
  (Reference.locale "home" "en" "/b" ∈ routes Reference.duplicates /\
   is_entry_for "home" "en" (Reference.locale "home" "en" "/b") /\
   is_Some (definitions Reference.duplicates !! "home") /\
   "en" ∈ supportedLanguages Reference.duplicates /\
   path (constructor Reference.duplicates) "home" "en" = "/a" /\
   _buildPath Reference.duplicates "en" "/b" = "/b") /\
  (Reference.locale "about" "en" "/about/" ∈ routes (Trimming.single "/about/") /\
   is_Some (definitions (Trimming.single "/about/") !! "about") /\
   "en" ∈ supportedLanguages (Trimming.single "/about/") /\
   new_LuwioRouter (Trimming.single "/about/") =
     Some (constructor (Trimming.single "/about/")) /\
   hasRoute (constructor (Trimming.single "/about/")) "about" "en" = false /\
   path (constructor (Trimming.single "/about/")) "about" "en" = "") /\
  (new_LuwioRouter (Trimming.single "about") =
     Some (constructor (Trimming.single "about")) /\
   hasRoute (constructor (Trimming.single "about")) "about" "en" = false) /\
  (Reference.locale "about" "en" "/about" ∈ routes Trimming.twice /\
   new_LuwioRouter Trimming.twice = None).
Proof.
  split; [|split; [|split]].
  - split; [right; left|]. split; [split; reflexivity|].
    split; [eexists; vm_compute; reflexivity|]. split; [left|].
    split; vm_compute; reflexivity.
  - split; [left|]. split; [eexists; vm_compute; reflexivity|]. split; [left|].
    repeat split; vm_compute; reflexivity.
  - split; vm_compute; reflexivity.
  - split; [left|]. vm_compute. reflexivity.
Qed.

(** C3 on scenario A with the engine that rewrites paths, where
    (about, be) has one entry. *)
Lemma first_entry_resolves_witness :
  new_LuwioRouter Trimming.scenarioA = Some (constructor Trimming.scenarioA) /\
  hasRoute (constructor Trimming.scenarioA) "about" "be" = true /\
  path (constructor Trimming.scenarioA) "about" "be" = "/be/over-ons".
Proof.
  assert (Hwf : registers_normalised Trimming.scenarioA).
  { split; refine (bool_decide_unpack _ _); vm_compute; exact I. }
  assert (Hin : Reference.locale "about" "be" "/over-ons" ∈ routes Trimming.scenarioA).
  { do 3 right. left. }
  assert (Hentry : is_entry_for "about" "be" (Reference.locale "about" "be" "/over-ons")).
  { split; reflexivity. }
  assert (Hdef : is_Some (definitions Trimming.scenarioA !! "about")).
  { eexists. vm_compute. reflexivity. }
  assert (Hsup : "be" ∈ supportedLanguages Trimming.scenarioA).
  { right. left. }
  destruct (first_entry_resolves Trimming.scenarioA "about" "be" _
              trimming_indexes Hwf Hin Hentry Hdef Hsup)
    as (Hnew & Hhas & _ & Honly).
  split; [exact Hnew|]. split; [exact Hhas|]. rewrite Honly; [reflexivity|].
  intros other Hother [Hk Hl]. apply list_elem_of_In in Hother. simpl in Hother.
  destruct Hother as [<-|[<-|[<-|[<-|[]]]]]; try discriminate. reflexivity.
Defined.

(** C9 on [Reference.duplicates]: the first of the two entries decides,
    also for the [to] and the [from] that navigate hands to the engine. *)
Lemma resolution_first_match_witness :
  path (constructor Reference.duplicates) "home" "en" = "/a" /\
  hasRoute (constructor Reference.duplicates) "home" "en" = true /\
  calls (snd (navigate (constructor Reference.duplicates)
                (Reference.go_to "home" "en" (Some (LanguageAwareRoute.mk "home" "en")))
                (Reference.fresh "/"))) =
    [@CallNavigate Reference.engine
       (NavigateOptions.mk "/a" (Some "/a") None None None None None)].
Proof.
  assert (Hfirst : first_entry_for Reference.duplicates "home" "en"
                     (Reference.locale "home" "en" "/a")).
  { exists [], [Reference.locale "home" "en" "/b"].
    split; [reflexivity|]. split; [split; reflexivity|constructor]. }
  assert (Hdef : is_Some (Js.get (definitions Reference.duplicates) "home")).
  { eexists. vm_compute. reflexivity. }
  destruct (resolution_first_match Reference.duplicates "home" "en" _ Hfirst Hdef)
    as (_ & Hpath & Hhas & _ & _ & _ & Hfrom).
  rewrite Hpath, Hhas. split; [vm_compute; reflexivity|].
  split; [vm_compute; reflexivity|].
  assert (Hto : _route (constructor Reference.duplicates) "home" "en" =
                Some {| Reference.route_fullPath := "/a";
                        Reference.route_component := Some "home" |}).
  { vm_compute. reflexivity. }
  unfold Reference.go_to.
  rewrite (Hfrom (LanguageAwareRoute.mk "home" "en") _ None None None None None
             (Reference.fresh "/") Hto).
  vm_compute. reflexivity.
Defined.

(** A default language that is not supported, and no shared path. *)
Example default_language_unsupported_example :
  compileRoute Reference.defaultDropped (Reference.locale "about" "en" "/about") = None /\
  hasRoute (constructor Reference.defaultDropped) "about" "en" = false /\
  path (constructor Reference.defaultDropped) "about" "en" = "".
Proof.
  assert (Hunsupported : defaultLanguage Reference.defaultDropped
                           ∉ supportedLanguages Reference.defaultDropped).
  { intros Hin. apply list_elem_of_In in Hin. simpl in Hin. intuition discriminate. }
  destruct (default_language_unsupported Reference.defaultDropped Hunsupported)
    as [Hdrop Hnone].
  split; [apply Hdrop; reflexivity|].
  apply (Hnone "about"). intros route other Hfirst Hin [_ Hsup].
  apply find_first_entry in Hfirst. vm_compute in Hfirst. injection Hfirst as <-.
  apply list_elem_of_In in Hin. apply list_elem_of_In in Hsup.
  simpl in Hin, Hsup.
  destruct Hin as [<-|[<-|[<-|[<-|[]]]]]; simpl in Hsup;
    try (vm_compute; discriminate); intuition discriminate.
Qed.

(** C10: the claim fails on [Reference.defaultUnsupported]: the default
    language "en" is not supported and the entry (home, en, "/be/x") is
    dropped, yet hasRoute("home", "en") is true and path("home", "en") is
    "/be/x", the route registered for the entry (about, be, "/x"). *)
Theorem unsupported_default_resolves :
  Js.includes (supportedLanguages Reference.defaultUnsupported)
    (defaultLanguage Reference.defaultUnsupported) = false /\
  compileRoute Reference.defaultUnsupported (Reference.locale "home" "en" "/be/x") = None /\
  hasRoute (constructor Reference.defaultUnsupported) "home" "en" = true /\
  path (constructor Reference.defaultUnsupported) "home" "en" = "/be/x".
Proof. repeat split; vm_compute; reflexivity. Qed.

(** C4 on scenario A (scenario C of the spec), for either side. *)
Lemma navigate_rejects_unresolved_witness :
  fst (navigate (constructor Reference.scenarioA)
         (Reference.go_to "missing" "en" None) (Reference.fresh "/")) =
    Rejected {| message :=
      "Route (to) for key " +:+ Js.dquote +:+ "missing" +:+ Js.dquote
      +:+ " and language " +:+ Js.dquote +:+ "en" +:+ Js.dquote +:+ " not found." |} /\
  fst (navigate (constructor Reference.scenarioA)
         (Reference.go_to "home" "en" (Some (LanguageAwareRoute.mk "about" "fr")))
         (Reference.fresh "/")) =
    Rejected {| message :=
      "Route (from) for key " +:+ Js.dquote +:+ "about" +:+ Js.dquote
      +:+ " and language " +:+ Js.dquote +:+ "fr" +:+ Js.dquote +:+ " not found." |}.
Proof.
  split.
  - apply (navigate_rejects_unresolved (constructor Reference.scenarioA)
             (Reference.go_to "missing" "en" None) (Reference.fresh "/")).
    reflexivity.
  - destruct (navigate_rejects_unresolved (constructor Reference.scenarioA)
                (Reference.go_to "home" "en" (Some (LanguageAwareRoute.mk "about" "fr")))
                (Reference.fresh "/")) as [_ Hfrom].
    apply (Hfrom (LanguageAwareRoute.mk "about" "fr")); reflexivity.
Defined.

(** C5 on scenario A: the world after the rejected call is the world before. *)
Lemma navigate_rejection_leaves_engine_witness :
  snd (navigate (constructor Reference.scenarioA)
         (Reference.go_to "missing" "en" None) (Reference.fresh "/")) =
    Reference.fresh "/".
Proof.
  apply (navigate_rejection_leaves_engine (constructor Reference.scenarioA)
           (Reference.go_to "missing" "en" None) (Reference.fresh "/")).
  left. reflexivity.
Defined.

(** A call that resolves is delegated: one recorded call, a new location. *)
Example navigate_resolved_reaches_engine :
  fst (navigate (constructor Reference.scenarioA)
         (Reference.go_to "about" "be" None) (Reference.fresh "/")) = Fulfilled /\
  calls (snd (navigate (constructor Reference.scenarioA)
                (Reference.go_to "about" "be" None) (Reference.fresh "/"))) =
    [@CallNavigate Reference.engine
       (NavigateOptions.mk "/be/over-ons" None None None None None None)] /\
  ParsedLocation.pathname
    (location (store (snd (navigate (constructor Reference.scenarioA)
                             (Reference.go_to "about" "be" None) (Reference.fresh "/"))))) =
    "/be/over-ons".
Proof. repeat split; vm_compute; reflexivity. Qed.

(** C8 on scenario A at the location "/be/over-ons". *)
Lemma isActive_iff_pathname_witness :
  isActive (constructor Reference.scenarioA) (Reference.at_path "/be/over-ons")
    "about" "be" = true /\
  isActive (constructor Reference.scenarioA) (Reference.at_path "/be/over-ons")
    "about" "fr" = false.
Proof.
  assert (Hnonempty : ParsedLocation.pathname
            (location (Reference.at_path "/be/over-ons")) <> "") by discriminate.
  split.
  - apply (isActive_iff_pathname (constructor Reference.scenarioA)
             (Reference.at_path "/be/over-ons") "about" "be" Hnonempty).
    reflexivity.
  - apply (isActive_iff_pathname (constructor Reference.scenarioA)
             (Reference.at_path "/be/over-ons") "about" "fr" Hnonempty).
    reflexivity.
Defined.

(** Why C8 needs a pathname that is not empty: at an empty pathname an
    unresolved pair has isActive false although path is empty as well. *)
Example isActive_empty_pathname :
  isActive (constructor Reference.scenarioA) (Reference.at_path "") "missing" "en" = false /\
  path (constructor Reference.scenarioA) "missing" "en" = "".
Proof. split; vm_compute; reflexivity. Qed.

(** C6 as stated fails for a baseUrl that ends with two slashes: one is
    stripped, the other meets the separating slash. *)
Lemma absolute_double_slash_join :
  hasRoute (constructor Reference.scenarioA) "about" "be" = true /\
  absolute (constructor Reference.scenarioA) (Reference.at_path "/") "https://x.com//"
    (Reference.select "about" "be") = "https://x.com//be/over-ons" /\
  double_slash_at_join
    (absolute (constructor Reference.scenarioA) (Reference.at_path "/") "https://x.com//"
       (Reference.select "about" "be"))
    (String.length (strippedBaseUrl "https://x.com//")) = true.
Proof. repeat split; vm_compute; reflexivity. Qed.

(** C6 on scenario D of the spec. *)
Lemma absolute_single_slash_join_witness :
  absolute (constructor Reference.scenarioA) (Reference.at_path "/") "https://x.com/"
    (Reference.select "about" "be") = "https://x.com/be/over-ons" /\
  double_slash_at_join
    (absolute (constructor Reference.scenarioA) (Reference.at_path "/") "https://x.com/"
       (Reference.select "about" "be"))
    (String.length (strippedBaseUrl "https://x.com/")) = false.
Proof.
  split; [vm_compute; reflexivity|].
  apply (absolute_single_slash_join (constructor Reference.scenarioA)
           (Reference.at_path "/") "https://x.com/" (Reference.select "about" "be"));
    vm_compute; reflexivity.
Defined.

(** C7 as stated fails for a baseUrl that ends with a slash: the result is
    baseUrl, not baseUrl + "/". *)
Lemma absolute_unresolved_trailing_slash :
  hasRoute (constructor Reference.scenarioA) "missing" "en" = false /\
  href (constructor Reference.scenarioA) (Reference.at_path "/")
    (Reference.select "missing" "en") = "" /\
  absolute (constructor Reference.scenarioA) (Reference.at_path "/") "https://x.com/"
    (Reference.select "missing" "en") = "https://x.com/" /\
  (absolute (constructor Reference.scenarioA) (Reference.at_path "/") "https://x.com/"
     (Reference.select "missing" "en") =? "https://x.com/" +:+ "/") = false.
Proof. repeat split; vm_compute; reflexivity. Qed.

(** C7 for a baseUrl without a final slash. *)
Lemma absolute_unresolved_witness :
  absolute (constructor Reference.scenarioA) (Reference.at_path "/") "https://x.com"
    (Reference.select "missing" "en") = "https://x.com/".
Proof.
  apply (absolute_unresolved (constructor Reference.scenarioA) (Reference.at_path "/")
           "https://x.com" (Reference.select "missing" "en")).
  reflexivity.
Defined.

(** ** Further properties of the facade *)

Section MoreProperties.
Context {E : Engine}.

(** *** Path builder *)

Lemma append_inj_l (s a b : string) : s +:+ a = s +:+ b -> a = b.
Proof.
  induction s as [|c s IH]; [exact (fun H => H)|].
  rewrite !append_cons. intros [= H]. now apply IH.
Qed.

Lemma prefix_append (p x : string) : String.prefix p (p +:+ x) = true.
Proof.
  induction p as [|c p IH]; [now destruct x|].
  rewrite append_cons, prefix_cons.
  destruct (Ascii.ascii_dec c c); [exact IH|congruence].
Qed.

(** X1: the concrete path of a language other than the default begins
    with "/" + language, and the path builder gives the empty string only
    for the default language with an empty raw path. *)
Theorem buildPath_shape config language rawPath :
  (language <> defaultLanguage config ->
     Js.startsWith (_buildPath config language rawPath) ("/" +:+ language) = true) /\
  (_buildPath config language rawPath = "" <->
     language = defaultLanguage config /\ rawPath = "").
Proof.
  unfold _buildPath. cbv zeta. split.
  - intros Hne. apply String.eqb_neq in Hne. rewrite Hne. simpl negb. cbv iota.
    unfold Js.startsWith. rewrite <- append_assoc. apply prefix_append.
  - destruct (language =? defaultLanguage config) eqn:Hl; simpl negb; cbv iota.
    + apply String.eqb_eq in Hl. split; [intros ->; now split|now intros [_ ->]].
    + apply String.eqb_neq in Hl. split; [discriminate|]. now intros [? _].
Qed.

(** X2: for one language the path builder keeps raw paths apart, except
    that outside the default language the raw paths "" and "/" both give
    "/" + language. *)
Theorem buildPath_injective config language a b :
  (a <> "" -> b <> "" ->
     _buildPath config language a = _buildPath config language b -> a = b) /\
  (language <> defaultLanguage config ->
     _buildPath config language "" = _buildPath config language "/").
Proof.
  unfold _buildPath. cbv zeta. split.
  - intros Ha Hb. destruct (language =? defaultLanguage config); simpl negb; cbv iota;
      [exact (fun H => H)|].
    intros Heq. apply append_inj_l in Heq. apply append_inj_l in Heq.
    destruct (a =? "/") eqn:Ea, (b =? "/") eqn:Eb.
    + apply String.eqb_eq in Ea, Eb. congruence.
    + congruence.
    + congruence.
    + exact Heq.
  - intros Hne. apply String.eqb_neq in Hne. now rewrite Hne.
Qed.

(** *** What resolves *)


(** X4: under the engine contract, whenever a pair resolves, path is the
    path builder's output for the pair's first entry, also when the route
    found was registered for another entry. *)
Theorem resolved_path_is_built `{!EngineLaws E} config key language :
  hasRoute (constructor config) key language = true ->
  exists route,
    first_entry_for config key language route /\
    path (constructor config) key language = concretePath config route.
Proof.
  intros Hhas. apply hasRoute_true in Hhas as [r Hr].
  unfold path. rewrite Hr. unfold _route in Hr.
  change (_config (constructor config)) with config in Hr.
  destruct (Js.get (definitions config) key); [|discriminate].
  destruct (List.find _ _) as [route|] eqn:Hf; [|discriminate].
  apply find_is_first_entry in Hf. exists route. split; [exact Hf|].
  apply resolved_is_registered in Hr as [-> _]. unfold concretePath.
  destruct Hf as (_ & _ & _ & [_ ->] & _). reflexivity.
Qed.

(** X5: under the engine contract, when no entry in the default language
    has an empty raw path, the empty string from path means that the pair
    does not resolve, and nothing else. *)
Theorem path_empty_iff_unresolved `{!EngineLaws E} config key language :
  (forall route, route ∈ routes config ->
     RouteLocale.language route = defaultLanguage config ->
     RouteLocale.path route <> "") ->
  (path (constructor config) key language = "" <->
   hasRoute (constructor config) key language = false).
Proof.
  intros Hraw. split.
  - intros Hempty.
    destruct (hasRoute (constructor config) key language) eqn:Hhas; [|reflexivity].
    destruct (resolved_path_is_built _ _ _ Hhas) as (route & Hfirst & Hp).
    rewrite Hp in Hempty. apply buildPath_shape in Hempty as [Hl Hr].
    destruct (first_entry_in _ _ _ _ Hfirst) as [Hin _].
    exfalso. exact (Hraw route Hin Hl Hr).
  - intros Hnone. apply hasRoute_false in Hnone. unfold path. now rewrite Hnone.
Qed.


Lemma omap_filter_inert {A B} (f : A -> option B) (P : A -> Prop)
    `{!forall x, Decision (P x)} (l : list A) :
  (forall x, ~ P x -> f x = None) -> omap f (filter P l) = omap f l.
Proof.
  intros Hnone. induction l as [|a l IH]; [reflexivity|].
  rewrite filter_cons. destruct (decide (P a)) as [Hp|Hp]; cbn.
  - now rewrite IH.
  - rewrite (Hnone a Hp). exact IH.
Qed.

Lemma find_filter_kept {A} (f : A -> bool) (P : A -> Prop)
    `{!forall x, Decision (P x)} (l : list A) :
  (forall x, f x = true -> P x) -> List.find f (filter P l) = List.find f l.
Proof.
  intros Hkept. induction l as [|a l IH]; [reflexivity|].
  rewrite filter_cons. destruct (decide (P a)) as [Hp|Hp]; simpl.
  - now rewrite IH.
  - destruct (f a) eqn:Hf; [|exact IH]. exfalso. apply Hp, Hkept, Hf.
Qed.

(** X7: locale entries whose key reads as undefined in the definitions
    (no own definition, and not a name every object inherits) are inert:
    without them the constructor builds the same router and every pair
    resolves to the same route. *)
Theorem undefined_entries_inert config :
  _router (constructor (without_undefined config)) = _router (constructor config) /\
  forall key language,
    _route (constructor (without_undefined config)) key language =
    _route (constructor config) key language.
Proof.
  assert (Hrouter : _router (constructor (without_undefined config)) =
                    _router (constructor config)).
  { simpl. f_equal.
    change (compileRoute (with_routes config _)) with (compileRoute config).
    apply omap_filter_inert. intros x Hx. unfold compileRoute.
    destruct (Js.get (definitions config) (RouteLocale.definition x)) eqn:Hd; [|reflexivity].
    exfalso. apply Hx. eexists; reflexivity. }
  split; [exact Hrouter|]. intros key language. unfold _route. rewrite Hrouter.
  change (_config (constructor (without_undefined config)))
    with (without_undefined config).
  change (_config (constructor config)) with config.
  change (definitions (without_undefined config)) with (definitions config).
  destruct (Js.get (definitions config) key) as [d|] eqn:Hd; [|reflexivity].
  change (routes (without_undefined config))
    with (filter (fun r => is_Some (Js.get (definitions config) (RouteLocale.definition r)))
            (routes config)).
  rewrite find_filter_kept; [reflexivity|].
  intros x Hx. apply matches_entry in Hx as [-> _]. rewrite Hd. eexists; reflexivity.
Qed.

(** X8: the constructor hands the engine one route per registered entry
    (reading its key in the definitions gives something, and its language
    is supported), in the order of the routes list and with repetitions
    kept, each created under the root at the entry's concrete path with
    the component read from the definition (none for an inherited
    member). *)
Theorem constructor_registers_in_order config :
  omap (compileRoute config) (routes config) =
    (fun r =>
       createRoute (root config)
         (_buildPath config (RouteLocale.language r) (RouteLocale.path r))
         (match Js.get (definitions config) (RouteLocale.definition r) with
          | Some (Js.Own d) => Some (component d)
          | _ => None
          end)) <$> registered config /\
  _router (constructor config) =
    createRouter (root config)
      ((fun r =>
          createRoute (root config)
            (_buildPath config (RouteLocale.language r) (RouteLocale.path r))
            (match Js.get (definitions config) (RouteLocale.definition r) with
             | Some (Js.Own d) => Some (component d)
             | _ => None
             end)) <$> registered config).
Proof.
  assert (Hlist : omap (compileRoute config) (routes config) =
    (fun r =>
       createRoute (root config)
         (_buildPath config (RouteLocale.language r) (RouteLocale.path r))
         (match Js.get (definitions config) (RouteLocale.definition r) with
          | Some (Js.Own d) => Some (component d)
          | _ => None
          end)) <$> registered config).
  { rewrite compiled_specs. unfold create. rewrite <- list_fmap_compose.
    apply list_fmap_ext. intros i r _. unfold route_spec, concretePath. simpl.
    destruct (Js.get _ _) as [[d|]|]; reflexivity. }
  split; [exact Hlist|]. simpl. now rewrite Hlist.
Qed.

(** *** Links *)

(** X9: for a pair that resolves, href and relative are the engine's
    link for exactly the path that path returns, with the query and the
    parameters passed through and the hash passed unless it is empty. *)
Theorem href_at_path this st p :
  hasRoute this (href_key p) (href_language p) = true ->
  href this st p =
    ParsedLocation.href
      (buildLocation (_router this) st
         (BuildOptions.mk (path this (href_key p) (href_language p))
            (href_query p) (href_params p)
            (match href_hash p with
             | Some h => if h =? "" then None else Some h
             | None => None
             end))) /\
  relative this st p = href this st p.
Proof.
  intros Hhas. apply hasRoute_true in Hhas as [r Hr].
  unfold relative, href, path. rewrite Hr. split; reflexivity.
Qed.

(** X10: an empty hash is no hash: href, absolute and navigate give the
    same result for the hash "" as for a call without hash. *)
Theorem empty_hash_is_no_hash this st w baseUrl k l q pa to from m s :
  href this st
    {| href_key := k; href_language := l; href_query := q; href_params := pa;
       href_hash := Some "" |} =
  href this st
    {| href_key := k; href_language := l; href_query := q; href_params := pa;
       href_hash := None |} /\
  absolute this st baseUrl
    {| href_key := k; href_language := l; href_query := q; href_params := pa;
       href_hash := Some "" |} =
  absolute this st baseUrl
    {| href_key := k; href_language := l; href_query := q; href_params := pa;
       href_hash := None |} /\
  navigate this
    {| nav_to := to; nav_from := from; nav_query := q; nav_params := pa;
       nav_hash := Some ""; nav_method := m; nav_state := s |} w =
  navigate this
    {| nav_to := to; nav_from := from; nav_query := q; nav_params := pa;
       nav_hash := None; nav_method := m; nav_state := s |} w.
Proof. repeat split; reflexivity. Qed.

Lemma strippedBaseUrl_slash (b : string) : strippedBaseUrl (b +:+ "/") = b.
Proof.
  unfold strippedBaseUrl.
  replace (Js.endsWith (b +:+ "/") "/") with true.
  - apply slice_to_last.
  - symmetry. apply endsWith_spec. now exists b.
Qed.

(** X11: absolute does not depend on one trailing slash of baseUrl: a
    baseUrl that does not end with a slash and the same baseUrl followed
    by a slash give the same link. *)
Theorem absolute_ignores_trailing_slash this st baseUrl p :
  Js.endsWith baseUrl "/" = false ->
  absolute this st (baseUrl +:+ "/") p = absolute this st baseUrl p.
Proof.
  intros Hb. unfold absolute. rewrite strippedBaseUrl_slash.
  unfold strippedBaseUrl. now rewrite Hb.
Qed.


(** *** Navigation *)

Lemma path_of_resolved this r found :
  _route this (LanguageAwareRoute.key r) (LanguageAwareRoute.language r) = Some found ->
  path_of this r = fullPath found.
Proof. intros Hr. unfold path_of, path. now rewrite Hr. Qed.

(** Every navigate call is of one of two kinds. *)
Lemma navigate_cases this p w :
  (selectors_resolve this p /\
   exists toRoute fromRoute,
     navigate this p w = invoke_navigate this (navigate_options p toRoute fromRoute) w /\
     fullPath toRoute = path_of this (nav_to p) /\
     fullPath <$> fromRoute = path_of this <$> nav_from p) \/
  (~ selectors_resolve this p /\ snd (navigate this p w) = w).
Proof.
  unfold selectors_resolve, navigate. cbv zeta.
  destruct (_route this (LanguageAwareRoute.key (nav_to p)) _) as [toRoute|] eqn:Hto.
  - destruct (nav_from p) as [from|] eqn:Hfrom.
    + destruct (_route this (LanguageAwareRoute.key from) _) as [fromRoute|] eqn:Hfr.
      * left. split.
        -- split; [apply hasRoute_true; rewrite Hto; eexists; reflexivity|].
           intros f [= <-]. apply hasRoute_true. rewrite Hfr. eexists; reflexivity.
        -- exists toRoute, (Some fromRoute). split; [reflexivity|].
           split; [symmetry; now apply path_of_resolved|].
           simpl. f_equal. symmetry. now apply path_of_resolved.
      * right. split; [|reflexivity]. intros [_ Hall].
        specialize (Hall from eq_refl). apply hasRoute_true in Hall as [x Hx]. congruence.
    + left. split.
      * split; [apply hasRoute_true; rewrite Hto; eexists; reflexivity|discriminate].
      * exists toRoute, None. split; [reflexivity|].
        split; [symmetry; now apply path_of_resolved|reflexivity].
  - right. split; [|reflexivity]. intros [Hhas _].
    apply hasRoute_true in Hhas as [x Hx]. congruence.
Qed.

(** X13: a navigate call whose selectors resolve is settled by the
    engine: it issues one navigation, to path(to) and from path(from) when
    from is given, with query, parameters and method passed through; the
    promise and the store are the engine's. *)
Theorem navigate_delegates this p w :
  selectors_resolve this p ->
  exists options,
    navigate this p w =
      (fst (router_navigate (_router this) options (store w)),
       {| store := snd (router_navigate (_router this) options (store w));
          calls := (calls w ++ [CallNavigate options])%list |}) /\
    NavigateOptions.to options = path_of this (nav_to p) /\
    NavigateOptions.from options = path_of this <$> nav_from p /\
    NavigateOptions.search options = nav_query p /\
    NavigateOptions.params options = nav_params p /\
    NavigateOptions.method options = nav_method p.
Proof.
  intros Hres.
  destruct (navigate_cases this p w) as [[_ (toRoute & fromRoute & Hnav & Hto & Hfrom)]|[Hno _]];
    [|contradiction].
  exists (navigate_options p toRoute fromRoute). rewrite Hnav.
  split; [|repeat split; assumption].
  unfold invoke_navigate. destruct (router_navigate _ _ _). reflexivity.
Qed.

(** X14: navigate issues at most one engine call and never erases the
    trace: it appends one navigation exactly when its selectors resolve,
    and leaves the trace as it was exactly when they do not. *)
Theorem navigate_reaches_engine_iff this p w :
  ((exists options,
      calls (snd (navigate this p w)) = (calls w ++ [CallNavigate options])%list) <->
   selectors_resolve this p) /\
  (calls (snd (navigate this p w)) = calls w <-> ~ selectors_resolve this p).
Proof.
  assert (Hgrow : forall options, (calls w ++ [CallNavigate options])%list <> calls w).
  { intros options Heq. apply (f_equal length) in Heq.
    rewrite length_app in Heq. simpl in Heq. lia. }
  destruct (navigate_cases this p w) as [[Hres (toRoute & fromRoute & Hnav & _)]|[Hno Hw]].
  - assert (Hcalls : calls (snd (navigate this p w)) =
                     (calls w ++ [CallNavigate (navigate_options p toRoute fromRoute)])%list).
    { rewrite Hnav. unfold invoke_navigate. destruct (router_navigate _ _ _). reflexivity. }
    split; split.
    + intros _. exact Hres.
    + intros _. eexists. exact Hcalls.
    + intros Heq. rewrite Hcalls in Heq. exfalso. exact (Hgrow _ Heq).
    + intros Hno. contradiction.
  - split; split.
    + intros [options Heq]. rewrite Hw in Heq. exfalso. exact (Hgrow _ (eq_sym Heq)).
    + intros Hres. contradiction.
    + intros _. exact Hno.
    + intros _. now rewrite Hw.
Qed.

(** *** Active route *)

(** X15: a pair that is active resolves, at any pathname, and its path is
    the current pathname; so two pairs that are active at one location
    have the same path. *)
Theorem active_pairs_share_path this st k1 l1 k2 l2 :
  isActive this st k1 l1 = true ->
  isActive this st k2 l2 = true ->
  hasRoute this k1 l1 = true /\
  path this k1 l1 = ParsedLocation.pathname (location st) /\
  path this k1 l1 = path this k2 l2.
Proof.
  unfold isActive, hasRoute, path. cbv zeta.
  destruct (_route this k1 l1) as [r1|]; [|discriminate].
  destruct (_route this k2 l2) as [r2|]; [|discriminate].
  intros H1 H2. apply String.eqb_eq in H1, H2.
  split; [reflexivity|]. split; congruence.
Qed.

(** *** Provider and hooks *)


Lemma useContext_none ancestors :
  useContext ancestors = None <-> Forall (fun e => provides_routing e = false) ancestors.
Proof.
  induction ancestors as [|e above IH]; [split; [constructor|reflexivity]|].
  destruct e; simpl.
  - rewrite IH. split; [now constructor|now inversion 1].
  - split; [discriminate|]. inversion 1. discriminate.
  - rewrite IH. split; [now constructor|now inversion 1].
Qed.

Lemma useContext_skip inner above :
  Forall (fun e => provides_routing e = false) inner ->
  useContext (inner ++ above) = useContext above.
Proof.
  induction 1 as [|e inner He _ IH]; [reflexivity|].
  destruct e; [exact IH|discriminate|exact IH].
Qed.

(** X17: useRouting throws, with its message, exactly when no ancestor of
    the consumer provides the routing context; anywhere under the element
    RoutingProvider renders, with no other provider in between, it returns
    the router built from the provider's props, whose engine router is the
    one the provider renders. *)
Theorem useRouting_in_provider props inner outer ancestors :
  (useRouting ancestors =
     inl {| message := "useRouting must be used within a RoutingProvider" |} <->
   Forall (fun e => provides_routing e = false) ancestors) /\
  (Forall (fun e => provides_routing e = false) inner ->
   RoutingProvider props =
     RoutingContextProvider (constructor props)
       (RouterProvider (_router (constructor props))) /\
   useRouting (inner ++ RouterProvider (_router (constructor props))
                     :: RoutingProvider props :: outer) =
     inr (constructor props)).
Proof.
  split.
  - rewrite <- useContext_none. unfold useRouting.
    destruct (useContext ancestors); split; try discriminate; reflexivity.
  - intros Hinner. split; [reflexivity|].
    unfold useRouting. rewrite (useContext_skip _ _ Hinner). reflexivity.
Qed.

End MoreProperties.

(** ** The further properties at concrete configurations *)

(** X1 on scenario A. *)
Lemma buildPath_shape_witness :
  Js.startsWith (_buildPath Reference.scenarioA "be" "/over-ons") ("/" +:+ "be") = true /\
  _buildPath Reference.scenarioA "en" "" = "".
Proof.
  split.
  - apply (buildPath_shape Reference.scenarioA "be" "/over-ons"). discriminate.
  - apply (buildPath_shape Reference.scenarioA "en" ""). split; reflexivity.
Defined.

(** X2 on scenario A: the two spellings of the root in "be". *)
Lemma buildPath_injective_witness :
  _buildPath Reference.scenarioA "be" "" = _buildPath Reference.scenarioA "be" "/".
Proof.
  apply (buildPath_injective Reference.scenarioA "be" "" ""). discriminate.
Defined.


(** X4 on [Reference.sharedPath]. *)
Lemma resolved_path_is_built_witness :
  exists route,
    first_entry_for Reference.sharedPath "home" "be" route /\
    path (constructor Reference.sharedPath) "home" "be" =
      concretePath Reference.sharedPath route.
Proof.
  apply (resolved_path_is_built Reference.sharedPath "home" "be").
  vm_compute. reflexivity.
Defined.

(** X5 on scenario A, where no raw path is empty. *)
Lemma path_empty_iff_unresolved_witness :
  hasRoute (constructor Reference.scenarioA) "about" "fr" = false.
Proof.
  apply (path_empty_iff_unresolved Reference.scenarioA "about" "fr").
  - intros route Hin _. apply list_elem_of_In in Hin. simpl in Hin.
    destruct Hin as [<-|[<-|[<-|[<-|[]]]]]; discriminate.
  - vm_compute. reflexivity.
Defined.


(** Without any definition, an entry whose key names an inherited member
    is registered and resolves. *)
Example inherited_key_resolves :
  new_LuwioRouter Trimming.inheritedKey = Some (constructor Trimming.inheritedKey) /\
  hasRoute (constructor Trimming.inheritedKey) "constructor" "en" = true /\
  path (constructor Trimming.inheritedKey) "constructor" "en" = "/c".
Proof. repeat split; vm_compute; reflexivity. Qed.

(** X7 on [Reference.unknownKey]: the entry of "contact" is the inert one. *)
Example undefined_entries_inert_example :
  routes (without_undefined Reference.unknownKey) =
    [Reference.locale "home" "en" "/"; Reference.locale "about" "en" "/about";
     Reference.locale "about" "be" "/over-ons"] /\
  hasRoute (constructor Reference.unknownKey) "contact" "en" = false.
Proof. split; vm_compute; reflexivity. Qed.

(** X8 on [Reference.onlyDefault]: two of the four entries are registered. *)
Example constructor_registers_in_order_example :
  fullPath <$> omap (compileRoute Reference.onlyDefault) (routes Reference.onlyDefault) =
    ["/"; "/about"] /\
  registered Reference.onlyDefault =
    [Reference.locale "home" "en" "/"; Reference.locale "about" "en" "/about"].
Proof. split; vm_compute; reflexivity. Qed.

(** X9 on scenario A. *)
Lemma href_at_path_witness :
  href (constructor Reference.scenarioA) (Reference.at_path "/")
    (Reference.select "about" "be") = "/be/over-ons".
Proof.
  destruct (href_at_path (constructor Reference.scenarioA) (Reference.at_path "/")
              (Reference.select "about" "be")) as [Hhref _].
  - vm_compute. reflexivity.
  - rewrite Hhref. vm_compute. reflexivity.
Defined.

(** X11 on scenario A. *)
Lemma absolute_ignores_trailing_slash_witness :
  absolute (constructor Reference.scenarioA) (Reference.at_path "/")
    ("https://x.com" +:+ "/") (Reference.select "about" "be") =
  absolute (constructor Reference.scenarioA) (Reference.at_path "/")
    "https://x.com" (Reference.select "about" "be").
Proof.
  apply (absolute_ignores_trailing_slash (constructor Reference.scenarioA)
           (Reference.at_path "/") "https://x.com" (Reference.select "about" "be")).
  reflexivity.
Defined.


(** X13 on scenario A: from the home page to the Belgian about page. *)
Lemma navigate_delegates_witness :
  exists options,
    navigate (constructor Reference.scenarioA)
      (Reference.go_to "about" "be" (Some (LanguageAwareRoute.mk "home" "en")))
      (Reference.fresh "/") =
      (fst (router_navigate (_router (constructor Reference.scenarioA)) options
              (store (Reference.fresh "/"))),
       {| store := snd (router_navigate (_router (constructor Reference.scenarioA)) options
                          (store (Reference.fresh "/")));
          calls := (calls (Reference.fresh "/") ++ [CallNavigate options])%list |}) /\
    NavigateOptions.to options = "/be/over-ons" /\
    NavigateOptions.from options = Some "/".
Proof.
  destruct (navigate_delegates (constructor Reference.scenarioA)
              (Reference.go_to "about" "be" (Some (LanguageAwareRoute.mk "home" "en")))
              (Reference.fresh "/")) as (options & Hnav & Hto & Hfrom & _).
  - split; [vm_compute; reflexivity|]. intros from [= <-]. vm_compute. reflexivity.
  - exists options. split; [exact Hnav|]. split.
    + rewrite Hto. vm_compute. reflexivity.
    + rewrite Hfrom. vm_compute. reflexivity.
Defined.

(** X14 on scenario A: an unknown key leaves the trace as it was. *)
Lemma navigate_reaches_engine_iff_witness :
  calls (snd (navigate (constructor Reference.scenarioA)
                (Reference.go_to "missing" "en" None) (Reference.fresh "/"))) =
  calls (Reference.fresh "/").
Proof.
  apply (navigate_reaches_engine_iff (constructor Reference.scenarioA)
           (Reference.go_to "missing" "en" None) (Reference.fresh "/")).
  intros [Hto _]. vm_compute in Hto. discriminate.
Defined.

(** X15 on [Reference.sharedPath], where two pairs are active at "/be". *)
Lemma active_pairs_share_path_witness :
  hasRoute (constructor Reference.sharedPath) "home" "en" = true /\
  path (constructor Reference.sharedPath) "home" "en" =
    ParsedLocation.pathname (location (Reference.at_path "/be")) /\
  path (constructor Reference.sharedPath) "home" "en" =
    path (constructor Reference.sharedPath) "home" "be".
Proof.
  apply (active_pairs_share_path (constructor Reference.sharedPath)
           (Reference.at_path "/be") "home" "en" "home" "be");
    vm_compute; reflexivity.
Defined.


(** X17 under the provider of scenario A, one element below the rendered
    RouterProvider. *)
Lemma useRouting_in_provider_witness :
  useRouting
    [Rendered; RouterProvider (_router (constructor Reference.scenarioA));
     RoutingProvider Reference.scenarioA] =
  inr (constructor Reference.scenarioA).
Proof.
  destruct (useRouting_in_provider Reference.scenarioA [Rendered] [] []) as [_ Hunder].
  apply Hunder. repeat constructor.
Defined.
